(** * TrololoBot: the in-memory session-state core

    A shallow embedding of the two stateful classes of the bot,
    [RateLimiter] (src/main.py) and [ContextManager]
    (src/context_manager.py), together with the constants of
    src/config.py, and the properties of them that the specification
    states; then of the code around them: the handlers of src/main.py
    that call the two classes, the request loop of
    src/deepseek_client.py and the local generator of
    src/comment_generator.py, with properties read off that code.

    Conventions of the embedding.
    - A Python [int] is a [Z].
    - A [datetime] is a [Z]: the number of microseconds since a fixed
      origin (microseconds are the resolution of [datetime]); a
      [timedelta] is a [Z] number of microseconds.
    - A Python [str] is the list of its Unicode code points, so that
      [len] is [length] (the block labels contain Cyrillic letters).
    - [datetime.now()] is an input: every operation takes the value that
      the clock returns when the operation reads it.
    - A method that mutates [self] returns the new object next to its
      result.
    - What the outside world decides is an input as well: the answers
      of the HTTP requests, the indices that [random] draws, and the
      two functions of the Unicode tables that the generator uses.
    - Logging is not represented. *)

From stdpp Require Import gmap list fin_maps sorting.
From Stdlib Require Import ZArith Lia.

Local Open Scope Z_scope.

(* ===================================================================== *)
(** * Python primitives used by the code *)
(* ===================================================================== *)

(** [str] as code points. *)
Abbreviation pystr := (list Z).

(** [len(x)] as a Python integer. *)
Definition len {A} (l : list A) : Z := Z.of_nat (length l).

(** [l[k:]] for an integer [k] (negative [k] counts from the end and is
    clamped at the start of the list). *)
Definition slice_from {A} (k : Z) (l : list A) : list A :=
  if k <? 0 then drop (Z.to_nat (Z.max 0 (len l + k))) l
  else drop (Z.to_nat k) l.

(** [l[:k]] for an integer [k]. *)
Definition slice_to {A} (k : Z) (l : list A) : list A :=
  if k <? 0 then take (Z.to_nat (Z.max 0 (len l + k))) l
  else take (Z.to_nat k) l.

(** [l.index(x)]: the position of the first element equal to [x].
    Python raises [ValueError] when there is none; the code only asks
    for elements drawn from [l], and the function then returns
    [length l]. *)
Fixpoint index {A} `{EqDecision A} (x : A) (l : list A) : nat :=
  match l with
  | [] => O
  | y :: r => if decide (y = x) then O else S (index x r)
  end.

(** [min(l)] of a non-empty list [x :: r]. *)
Definition py_min (x : Z) (r : list Z) : Z := foldr Z.min x r.

(** [sep.join(parts)]. *)
Fixpoint join (sep : pystr) (parts : list pystr) : pystr :=
  match parts with
  | [] => []
  | [p] => p
  | p :: rest => p ++ sep ++ join sep rest
  end.

(** [enumerate(l, start)]. *)
Fixpoint enumerate {A} (start : Z) (l : list A) : list (Z * A) :=
  match l with
  | [] => []
  | x :: r => (start, x) :: enumerate (start + 1) r
  end.

(** [str.isspace] on one character: the Unicode white space that
    [str.strip()] removes. *)
Definition isspace (c : Z) : bool :=
  ((9 <=? c) && (c <=? 13)) || ((28 <=? c) && (c <=? 32))
  || (c =? 133) || (c =? 160) || (c =? 5760)
  || ((8192 <=? c) && (c <=? 8202))
  || (c =? 8232) || (c =? 8233) || (c =? 8239) || (c =? 8287)
  || (c =? 12288).

Fixpoint lstrip (s : pystr) : pystr :=
  match s with
  | [] => []
  | c :: r => if isspace c then lstrip r else s
  end.

Definition rstrip (s : pystr) : pystr := reverse (lstrip (reverse s)).

(** [s.strip()]. *)
Definition strip (s : pystr) : pystr := rstrip (lstrip s).

(** Decimal digits of [str(i)]. *)
Fixpoint uint_digits (d : Decimal.uint) : pystr :=
  match d with
  | Decimal.Nil => []
  | Decimal.D0 d => 48 :: uint_digits d
  | Decimal.D1 d => 49 :: uint_digits d
  | Decimal.D2 d => 50 :: uint_digits d
  | Decimal.D3 d => 51 :: uint_digits d
  | Decimal.D4 d => 52 :: uint_digits d
  | Decimal.D5 d => 53 :: uint_digits d
  | Decimal.D6 d => 54 :: uint_digits d
  | Decimal.D7 d => 55 :: uint_digits d
  | Decimal.D8 d => 56 :: uint_digits d
  | Decimal.D9 d => 57 :: uint_digits d
  end.

(** [str(i)] for an integer, as an f-string formats it. *)
Definition str_of_int (i : Z) : pystr :=
  match Z.to_int i with
  | Decimal.Pos d => uint_digits d
  | Decimal.Neg d => 45 :: uint_digits d
  end.

(** [timedelta(seconds=s)] and [timedelta(minutes=m)], in microseconds. *)
Definition timedelta_seconds (s : Z) : Z := s * 1000000.
Definition timedelta_minutes (m : Z) : Z := m * 60000000.

(** [int(d.total_seconds())]: [total_seconds] is the duration in seconds
    as a float and [int] truncates it toward zero, which is the
    truncated quotient by one million (exact on every duration below
    2^32 seconds, where the float quotient cannot round to a whole
    number). *)
Definition int_total_seconds (d : Z) : Z := Z.quot d 1000000.

(** [t.strftime("%H:%M:%S")]: always eight characters. *)
Definition two_digits (n : Z) : pystr := [48 + n / 10; 48 + n mod 10].

Definition strftime_HMS (t : Z) : pystr :=
  two_digits ((t / 3600000000) mod 24) ++ [58]
  ++ two_digits ((t / 60000000) mod 60) ++ [58]
  ++ two_digits ((t / 1000000) mod 60).

(** The outcome of a Python call that may raise. *)
Inductive outcome (A : Type) : Type :=
  | Returned (a : A)
  | Raised.
Arguments Returned {A} a.
Arguments Raised {A}.

(** A Python value returned by a method declared [-> None]. *)
Inductive pyvalue : Type :=
  | PyNone
  | PyInt (n : Z).

(* ===================================================================== *)
(** * src/config.py *)
(* ===================================================================== *)

Record Config := {
  CONTEXT_MAX_MESSAGES : Z;
  CONTEXT_TIMEOUT_MINUTES : Z;
  CONTEXT_MAX_TOKENS : Z;
  RATE_LIMIT_MESSAGES : Z;
  RATE_LIMIT_WINDOW : Z
}.

(** The values of the module as shipped. *)
Definition config : Config := {|
  CONTEXT_MAX_MESSAGES := 10;
  CONTEXT_TIMEOUT_MINUTES := 30;
  CONTEXT_MAX_TOKENS := 4000;
  RATE_LIMIT_MESSAGES := 5;
  RATE_LIMIT_WINDOW := 60
|}.

(* ===================================================================== *)
(** * src/main.py: class RateLimiter *)
(* ===================================================================== *)

Record RateLimiter := {
  max_messages : Z;
  time_window : Z;
  user_messages : gmap Z (list Z)   (* a defaultdict(list) *)
}.

(** The object that [RateLimiter.__init__] fills in. *)
Definition new_RateLimiter (max_messages time_window : Z) : RateLimiter :=
  {| max_messages := max_messages;
     time_window := time_window;
     user_messages := ∅ |}.

(** [RateLimiter.__init__] as a call: it stores its arguments, checks
    nothing and has no statement that can raise. *)
Definition RateLimiter_init (max_messages time_window : Z)
  : outcome RateLimiter :=
  Returned (new_RateLimiter max_messages time_window).

(** [self.user_messages[user_id]] read as a value: the list stored for
    the user, the empty list for a user never seen. *)
Definition history (self : RateLimiter) (user_id : Z) : list Z :=
  default [] (user_messages self !! user_id).

(** Storing the (mutated) list of the user back. *)
Definition set_history (self : RateLimiter) (user_id : Z) (h : list Z)
  : RateLimiter :=
  {| max_messages := max_messages self;
     time_window := time_window self;
     user_messages := <[user_id := h]> (user_messages self) |}.

(** [RateLimiter.is_allowed]. *)
Definition is_allowed (self : RateLimiter) (user_id : Z) (now : Z)
  : bool * RateLimiter :=
  let user_history := history self user_id in
  let cutoff_time := now - timedelta_seconds (time_window self) in
  let user_history :=
    filter (λ msg_time, cutoff_time < msg_time) user_history in
  if bool_decide (max_messages self ≤ len user_history)
  then (false, set_history self user_id user_history)
  else (true, set_history self user_id (user_history ++ [now])).

(** [RateLimiter.get_wait_time]. Reading [self.user_messages[user_id]]
    of a defaultdict creates the empty entry of an unknown user; the
    stored lists are not changed. *)
Definition get_wait_time (self : RateLimiter) (user_id : Z) (now : Z)
  : Z * RateLimiter :=
  let user_history := history self user_id in
  let self := set_history self user_id user_history in
  match user_history with
  | [] => (0, self)
  | t :: r =>
      let oldest_message := py_min t r in
      let wait_until :=
        oldest_message + timedelta_seconds (time_window self) in
      let wait_time := int_total_seconds (wait_until - now) in
      (Z.max 0 wait_time, self)
  end.

(* ===================================================================== *)
(** * src/context_manager.py *)
(* ===================================================================== *)

Record ContextMessage := {
  text : pystr;
  timestamp : Z;
  message_id : option Z
}.

(** The [__eq__] that [@dataclass] generates compares the fields. *)
Global Instance ContextMessage_eq_dec : EqDecision ContextMessage.
Proof. solve_decision. Defined.

Record ContextManager := {
  user_contexts : gmap Z (list ContextMessage);
  user_last_activity : gmap Z Z
}.

(** The object that [ContextManager.__init__] fills in. *)
Definition new_ContextManager : ContextManager :=
  {| user_contexts := ∅; user_last_activity := ∅ |}.

(** [ContextManager.__init__] as a call: it takes no configuration (the
    limits are read from [config] at each use) and cannot raise. *)
Definition ContextManager_init : outcome ContextManager :=
  Returned new_ContextManager.

(** The separator and the label of a block. *)
Definition separator : pystr := [10; 10; 45; 45; 45; 10; 10].

(** "[Сообщение " *)
Definition label_open : pystr :=
  [91; 1057; 1086; 1086; 1073; 1097; 1077; 1085; 1080; 1077; 32].

(** f"[Сообщение {i}, {time_str}]\n{msg.text}" *)
Definition block (i : Z) (msg : ContextMessage) : pystr :=
  label_open ++ str_of_int i ++ [44; 32] ++ strftime_HMS (timestamp msg)
  ++ [93; 10] ++ text msg.

Section WithConfig.

Variable cfg : Config.

(** [ContextManager.add_message]. The clock is read twice: [now_msg]
    stamps the message and [now] becomes the last activity. *)
Definition add_message (self : ContextManager) (user_id : Z) (txt : pystr)
    (mid : option Z) (now_msg now : Z) : ContextManager :=
  if bool_decide (txt = []) || (len (strip txt) <? 5) then self
  else
    let contexts :=
      match user_contexts self !! user_id with
      | None => <[user_id := []]> (user_contexts self)
      | Some _ => user_contexts self
      end in
    let message :=
      {| text := strip txt; timestamp := now_msg; message_id := mid |} in
    let messages := default [] (contexts !! user_id) ++ [message] in
    let contexts := <[user_id := messages]> contexts in
    let last_activity := <[user_id := now]> (user_last_activity self) in
    let contexts :=
      if CONTEXT_MAX_MESSAGES cfg <? len messages
      then <[user_id := slice_from (- CONTEXT_MAX_MESSAGES cfg) messages]>
             contexts
      else contexts in
    {| user_contexts := contexts; user_last_activity := last_activity |}.

(** [ContextManager.clear_context]. *)
Definition clear_context (self : ContextManager) (user_id : Z)
  : ContextManager :=
  {| user_contexts := delete user_id (user_contexts self);
     user_last_activity := delete user_id (user_last_activity self) |}.

(** [ContextManager._is_context_expired]. *)
Definition _is_context_expired (self : ContextManager) (user_id : Z)
    (now : Z) : bool :=
  match user_last_activity self !! user_id with
  | None => true
  | Some last =>
      let timeout := timedelta_minutes (CONTEXT_TIMEOUT_MINUTES cfg) in
      bool_decide (timeout < now - last)
  end.

(** The blocks of the last [i] messages, as [_truncate_context] labels
    them. *)
Definition suffix_parts (messages : list ContextMessage) (i : nat)
  : list pystr :=
  let suffix := slice_from (- Z.of_nat i) messages in
  map (λ msg,
         block (len messages - Z.of_nat i + Z.of_nat (index msg suffix) + 1)
               msg)
      suffix.

(** The loop [for i in range(len(messages), 0, -1)] of
    [_truncate_context], entered at [i]; [None] when it falls through. *)
Fixpoint truncate_loop (messages : list ContextMessage) (max_chars : Z)
    (i : nat) : option pystr :=
  match i with
  | O => None
  | S i' =>
      let context_text := join separator (suffix_parts messages i) in
      if len context_text <=? max_chars then Some context_text
      else truncate_loop messages max_chars i'
  end.

(** [ContextManager._truncate_context]. *)
Definition _truncate_context (self : ContextManager) (user_id : Z)
    (max_tokens : Z) : pystr :=
  let messages := default [] (user_contexts self !! user_id) in
  let max_chars := max_tokens * 4 in
  match truncate_loop messages max_chars (length messages) with
  | Some context_text => context_text
  | None =>
      match last messages with
      | Some last_msg => slice_to max_chars (text last_msg)
      | None => []
      end
  end.

(** The rendering of the whole buffer built by [get_context_text]. *)
Definition full_context_text (messages : list ContextMessage) : pystr :=
  join separator
       (map (λ p : Z * ContextMessage, block p.1 p.2) (enumerate 1 messages)).

(** [ContextManager.get_context_text]. *)
Definition get_context_text (self : ContextManager) (user_id : Z) (now : Z)
  : option pystr * ContextManager :=
  match user_contexts self !! user_id with
  | None => (None, self)
  | Some [] => (None, self)
  | Some messages =>
      if _is_context_expired self user_id now
      then (None, clear_context self user_id)
      else
        let context_text := full_context_text messages in
        let estimated_tokens := len context_text / 4 in
        if CONTEXT_MAX_TOKENS cfg <? estimated_tokens
        then (Some (_truncate_context self user_id (CONTEXT_MAX_TOKENS cfg)),
              self)
        else (Some context_text, self)
  end.

(** [ContextManager.has_context]. *)
Definition has_context (self : ContextManager) (user_id : Z) (now : Z)
  : bool * ContextManager :=
  match user_contexts self !! user_id with
  | None => (false, self)
  | Some [] => (false, self)
  | Some _ =>
      if _is_context_expired self user_id now
      then (false, clear_context self user_id)
      else (true, self)
  end.

(** [ContextManager.get_message_count]. *)
Definition get_message_count (self : ContextManager) (user_id : Z) (now : Z)
  : Z * ContextManager :=
  let '(has, self) := has_context self user_id now in
  if has then (len (default [] (user_contexts self !! user_id)), self)
  else (0, self).

(** The list [expired_users] of [cleanup_expired_contexts]; [clock u] is
    the reading of the clock taken while user [u] is tested. *)
Definition expired_users (self : ContextManager) (clock : Z → Z) : list Z :=
  filter (λ user_id, _is_context_expired self user_id (clock user_id) = true)
         (map fst (map_to_list (user_contexts self))).

(** [ContextManager.cleanup_expired_contexts]: declared [-> None]; the
    number of removed users only goes to the log. *)
Definition cleanup_expired_contexts (self : ContextManager) (clock : Z → Z)
  : pyvalue * ContextManager :=
  (PyNone, foldl clear_context self (expired_users self clock)).

End WithConfig.

(* ===================================================================== *)
(** * src/main.py: the handlers *)
(* ===================================================================== *)

(** The two module-level objects that the handlers share:
    [rate_limiter] and [context_manager]. *)
Record Globals := {
  g_rate_limiter : RateLimiter;
  g_context_manager : ContextManager
}.

(** What the handlers read of a Telegram message. [tg_forward_origin],
    [tg_photo], [tg_video] and [tg_document] are the truth values of
    the attributes (an absent attribute and an empty tuple are false). *)
Record Message := {
  tg_text : option pystr;
  tg_caption : option pystr;
  tg_forward_origin : bool;
  tg_photo : bool;
  tg_video : bool;
  tg_document : bool;
  tg_message_id : Z
}.

(** What the handlers read of an update: [update.effective_user.id]
    and [update.message]. *)
Record Update := {
  effective_user_id : Z;
  upd_message : option Message
}.

(** The texts of the replies. *)

(** "Слишком много запросов. Пожалуйста, подождите " *)
Definition too_many_requests_prefix : pystr :=
  [1057; 1083; 1080; 1096; 1082; 1086; 1084; 32; 1084; 1085; 1086; 1075;
   1086; 32; 1079; 1072; 1087; 1088; 1086; 1089; 1086; 1074; 46; 32; 1055;
   1086; 1078; 1072; 1083; 1091; 1081; 1089; 1090; 1072; 44; 32; 1087;
   1086; 1076; 1086; 1078; 1076; 1080; 1090; 1077; 32].

(** " секунд." *)
Definition too_many_requests_suffix : pystr :=
  [32; 1089; 1077; 1082; 1091; 1085; 1076; 46].

(** "У вас нет накопленного контекста. Пересылайте сообщения, чтобы
    создать контекст для анализа." *)
Definition reply_no_context : pystr :=
  [1059; 32; 1074; 1072; 1089; 32; 1085; 1077; 1090; 32; 1085; 1072; 1082;
   1086; 1087; 1083; 1077; 1085; 1085; 1086; 1075; 1086; 32; 1082; 1086;
   1085; 1090; 1077; 1082; 1089; 1090; 1072; 46; 32; 1055; 1077; 1088;
   1077; 1089; 1099; 1083; 1072; 1081; 1090; 1077; 32; 1089; 1086; 1086;
   1073; 1097; 1077; 1085; 1080; 1103; 44; 32; 1095; 1090; 1086; 1073;
   1099; 32; 1089; 1086; 1079; 1076; 1072; 1090; 1100; 32; 1082; 1086;
   1085; 1090; 1077; 1082; 1089; 1090; 32; 1076; 1083; 1103; 32; 1072;
   1085; 1072; 1083; 1080; 1079; 1072; 46].

(** "Контекст пуст или истек. Пересылайте новые сообщения." *)
Definition reply_context_empty : pystr :=
  [1050; 1086; 1085; 1090; 1077; 1082; 1089; 1090; 32; 1087; 1091; 1089;
   1090; 32; 1080; 1083; 1080; 32; 1080; 1089; 1090; 1077; 1082; 46; 32;
   1055; 1077; 1088; 1077; 1089; 1099; 1083; 1072; 1081; 1090; 1077; 32;
   1085; 1086; 1074; 1099; 1077; 32; 1089; 1086; 1086; 1073; 1097; 1077;
   1085; 1080; 1103; 46].

(** "Анализирую контекст из " *)
Definition analyzing_prefix : pystr :=
  [1040; 1085; 1072; 1083; 1080; 1079; 1080; 1088; 1091; 1102; 32; 1082;
   1086; 1085; 1090; 1077; 1082; 1089; 1090; 32; 1080; 1079; 32].

(** " сообщений... Это может занять некоторое время." *)
Definition analyzing_suffix : pystr :=
  [32; 1089; 1086; 1086; 1073; 1097; 1077; 1085; 1080; 1081; 46; 46; 46;
   32; 1069; 1090; 1086; 32; 1084; 1086; 1078; 1077; 1090; 32; 1079; 1072;
   1085; 1103; 1090; 1100; 32; 1085; 1077; 1082; 1086; 1090; 1086; 1088;
   1086; 1077; 32; 1074; 1088; 1077; 1084; 1103; 46].

(** "Не удалось сгенерировать комментарий. Проверьте настройки API или
    попробуйте позже." *)
Definition reply_generation_failed : pystr :=
  [1053; 1077; 32; 1091; 1076; 1072; 1083; 1086; 1089; 1100; 32; 1089;
   1075; 1077; 1085; 1077; 1088; 1080; 1088; 1086; 1074; 1072; 1090; 1100;
   32; 1082; 1086; 1084; 1084; 1077; 1085; 1090; 1072; 1088; 1080; 1081;
   46; 32; 1055; 1088; 1086; 1074; 1077; 1088; 1100; 1090; 1077; 32; 1085;
   1072; 1089; 1090; 1088; 1086; 1081; 1082; 1080; 32; 65; 80; 73; 32;
   1080; 1083; 1080; 32; 1087; 1086; 1087; 1088; 1086; 1073; 1091; 1081;
   1090; 1077; 32; 1087; 1086; 1079; 1078; 1077; 46].

(** "Произошла ошибка при генерации комментария. Попробуйте позже." *)
Definition reply_generation_error : pystr :=
  [1055; 1088; 1086; 1080; 1079; 1086; 1096; 1083; 1072; 32; 1086; 1096;
   1080; 1073; 1082; 1072; 32; 1087; 1088; 1080; 32; 1075; 1077; 1085;
   1077; 1088; 1072; 1094; 1080; 1080; 32; 1082; 1086; 1084; 1084; 1077;
   1085; 1090; 1072; 1088; 1080; 1103; 46; 32; 1055; 1086; 1087; 1088;
   1086; 1073; 1091; 1081; 1090; 1077; 32; 1087; 1086; 1079; 1078; 1077; 46].

(** "Контекст очищен. Можете начать собирать новый контекст." *)
Definition reply_cleared : pystr :=
  [1050; 1086; 1085; 1090; 1077; 1082; 1089; 1090; 32; 1086; 1095; 1080;
   1097; 1077; 1085; 46; 32; 1052; 1086; 1078; 1077; 1090; 1077; 32; 1085;
   1072; 1095; 1072; 1090; 1100; 32; 1089; 1086; 1073; 1080; 1088; 1072;
   1090; 1100; 32; 1085; 1086; 1074; 1099; 1081; 32; 1082; 1086; 1085;
   1090; 1077; 1082; 1089; 1090; 46].

(** "✓ Сообщение добавлено в контекст (" *)
Definition added_prefix : pystr :=
  [10003; 32; 1057; 1086; 1086; 1073; 1097; 1077; 1085; 1080; 1077; 32;
   1076; 1086; 1073; 1072; 1074; 1083; 1077; 1085; 1086; 32; 1074; 32;
   1082; 1086; 1085; 1090; 1077; 1082; 1089; 1090; 32; 40].

(** "). Используйте /analyze для генерации комментария." *)
Definition added_suffix : pystr :=
  [41; 46; 32; 1048; 1089; 1087; 1086; 1083; 1100; 1079; 1091; 1081; 1090;
   1077; 32; 47; 97; 110; 97; 108; 121; 122; 101; 32; 1076; 1083; 1103; 32;
   1075; 1077; 1085; 1077; 1088; 1072; 1094; 1080; 1080; 32; 1082; 1086;
   1084; 1084; 1077; 1085; 1090; 1072; 1088; 1080; 1103; 46].

(** "Переслано медиа без подписи. К сожалению, я анализирую только
    текстовое содержание." *)
Definition reply_media_without_caption : pystr :=
  [1055; 1077; 1088; 1077; 1089; 1083; 1072; 1085; 1086; 32; 1084; 1077;
   1076; 1080; 1072; 32; 1073; 1077; 1079; 32; 1087; 1086; 1076; 1087;
   1080; 1089; 1080; 46; 32; 1050; 32; 1089; 1086; 1078; 1072; 1083; 1077;
   1085; 1080; 1102; 44; 32; 1103; 32; 1072; 1085; 1072; 1083; 1080; 1079;
   1080; 1088; 1091; 1102; 32; 1090; 1086; 1083; 1100; 1082; 1086; 32;
   1090; 1077; 1082; 1089; 1090; 1086; 1074; 1086; 1077; 32; 1089; 1086;
   1076; 1077; 1088; 1078; 1072; 1085; 1080; 1077; 46].

(** f"Слишком много запросов. Пожалуйста, подождите {wait_time} секунд." *)
Definition reply_too_many_requests (wait_time : Z) : pystr :=
  too_many_requests_prefix ++ str_of_int wait_time ++ too_many_requests_suffix.

(** f"Анализирую контекст из {msg_count} сообщений... Это может занять
    некоторое время." *)
Definition reply_analyzing (msg_count : Z) : pystr :=
  analyzing_prefix ++ str_of_int msg_count ++ analyzing_suffix.

(** f"✓ Сообщение добавлено в контекст
    ({msg_count}/{config.CONTEXT_MAX_MESSAGES}). Используйте /analyze для
    генерации комментария." *)
Definition reply_added (cfg : Config) (msg_count : Z) : pystr :=
  added_prefix ++ str_of_int msg_count ++ [47]
  ++ str_of_int (CONTEXT_MAX_MESSAGES cfg) ++ added_suffix.

(** The clock readings that one run of [handle_analyze] can take, one
    for each method it calls. *)
Record analyze_clock := {
  at_is_allowed : Z;
  at_get_wait_time : Z;
  at_has_context : Z;
  at_get_context_text : Z;
  at_get_message_count : Z
}.

(** The reply that ends a successful path of [handle_analyze]:
    [generate] is [generate_detailed_sarcastic_comment]; an empty
    comment and an exception each have their own reply. *)
Definition reply_comment (generate : pystr → outcome pystr)
    (context_text : pystr) : pystr :=
  match generate context_text with
  | Returned [] => reply_generation_failed
  | Returned comment => comment
  | Raised => reply_generation_error
  end.

(** [handle_analyze]: the replies sent, in order, and the two objects
    afterwards. Every [reply_text] is taken to be delivered, so the
    outer [except] is not entered. *)
Definition handle_analyze (cfg : Config) (generate : pystr → outcome pystr)
    (g : Globals) (user_id : Z) (clk : analyze_clock)
  : list pystr * Globals :=
  let allowed := is_allowed (g_rate_limiter g) user_id (at_is_allowed clk) in
  if negb allowed.1 then
    let wait_time := get_wait_time allowed.2 user_id (at_get_wait_time clk) in
    ([reply_too_many_requests wait_time.1],
     {| g_rate_limiter := wait_time.2;
        g_context_manager := g_context_manager g |})
  else
    let has :=
      has_context cfg (g_context_manager g) user_id (at_has_context clk) in
    if negb has.1 then
      ([reply_no_context],
       {| g_rate_limiter := allowed.2; g_context_manager := has.2 |})
    else
      let context_text :=
        get_context_text cfg has.2 user_id (at_get_context_text clk) in
      match context_text.1 with
      | None | Some [] =>
          ([reply_context_empty],
           {| g_rate_limiter := allowed.2;
              g_context_manager := context_text.2 |})
      | Some txt =>
          let msg_count :=
            get_message_count cfg context_text.2 user_id
                              (at_get_message_count clk) in
          ([reply_analyzing msg_count.1; reply_comment generate txt],
           {| g_rate_limiter := allowed.2;
              g_context_manager := msg_count.2 |})
      end.

(** [handle_clear]. *)
Definition handle_clear (g : Globals) (user_id : Z) : list pystr * Globals :=
  ([reply_cleared],
   {| g_rate_limiter := g_rate_limiter g;
      g_context_manager := clear_context (g_context_manager g) user_id |}).

(** [message.text or message.caption or ""]. *)
Definition text_or_caption (message : Message) : pystr :=
  match tg_text message with
  | Some (c :: r) => c :: r
  | _ =>
      match tg_caption message with
      | Some (c :: r) => c :: r
      | _ => []
      end
  end.

(** The clock readings of [handle_forwarded_message]: the two of
    [add_message] and the one of [get_message_count]. *)
Record forward_clock := {
  at_message : Z;
  at_activity : Z;
  at_count : Z
}.

(** [handle_forwarded_message]. *)
Definition handle_forwarded_message (cfg : Config) (g : Globals)
    (update : Update) (clk : forward_clock) : list pystr * Globals :=
  let user_id := effective_user_id update in
  match upd_message update with
  | None => ([], g)
  | Some message =>
      if negb (tg_forward_origin message) then ([], g)
      else
        match text_or_caption message with
        | [] =>
            if tg_photo message || tg_video message || tg_document message
            then ([reply_media_without_caption], g)
            else ([], g)
        | txt =>
            let stored :=
              add_message cfg (g_context_manager g) user_id txt
                          (Some (tg_message_id message))
                          (at_message clk) (at_activity clk) in
            let msg_count :=
              get_message_count cfg stored user_id (at_count clk) in
            ([reply_added cfg msg_count.1],
             {| g_rate_limiter := g_rate_limiter g;
                g_context_manager := msg_count.2 |})
        end
  end.

(* ===================================================================== *)
(** * src/deepseek_client.py: the request loop *)
(* ===================================================================== *)

(** What reading the body of a 200 response does: it yields the
    content of the first choice, or raises an exception of the
    [requests] family (a body that is not JSON), or raises another
    exception (a JSON body of another shape). *)
Inductive body_result : Type :=
  | Content (content : pystr)
  | BodyRequestException
  | BodyOtherException.

(** What one [requests.post] does: it returns a response, or raises
    [Timeout], another [RequestException], or an exception outside that
    family. *)
Inductive post_result : Type :=
  | Response (status_code : Z) (body : body_result)
  | RaisesTimeout
  | RaisesRequestException
  | RaisesOtherException.

(** What a call did besides returning: the number of requests sent and
    the arguments of [time.sleep], in order. *)
Record api_effects := {
  posts : nat;
  sleeps : list Z
}.

(** The branch [if attempt < retries: time.sleep(2 ** attempt);
    continue] followed by [return None]; [continue_with] is the rest of
    the loop. *)
Definition retry_or_give_up (attempt retries : Z)
    (continue_with : outcome (option pystr) * api_effects)
  : outcome (option pystr) * api_effects :=
  if attempt <? retries
  then (continue_with.1,
        {| posts := S (posts continue_with.2);
           sleeps := 2 ^ attempt :: sleeps continue_with.2 |})
  else (Returned None, {| posts := 1; sleeps := [] |}).

(** The loop [for attempt in range(retries + 1)] of [generate_comment]
    and of [generate_detailed_comment], over the attempts still to be
    made; [post attempt] is what the request of that attempt does. *)
Fixpoint request_loop (retries : Z) (post : Z → post_result)
    (todo : list Z) : outcome (option pystr) * api_effects :=
  match todo with
  | [] => (Returned None, {| posts := 0; sleeps := [] |})
  | attempt :: rest =>
      let again :=
        retry_or_give_up attempt retries (request_loop retries post rest) in
      let stop (r : outcome (option pystr)) :=
        (r, {| posts := 1; sleeps := [] |}) in
      match post attempt with
      | Response status_code body =>
          if status_code =? 200 then
            match body with
            | Content content => stop (Returned (Some (strip content)))
            | BodyRequestException => again
            | BodyOtherException => stop Raised
            end
          else if status_code =? 429 then again
          else if status_code =? 401 then stop (Returned None)
          else if 500 <=? status_code then again
          else stop (Returned None)
      | RaisesTimeout => again
      | RaisesRequestException => again
      | RaisesOtherException => stop Raised
      end
  end.

(** [range(n)]. *)
Definition py_range (n : Z) : list Z := seqZ 0 n.

(** [DeepSeekClient.generate_comment] and
    [DeepSeekClient.generate_detailed_comment]: the same code but for
    the least length of the text, 10 and 20. *)
Definition generate_with (min_length : Z) (api_key : pystr) (txt : pystr)
    (retries : Z) (post : Z → post_result)
  : outcome (option pystr) * api_effects :=
  if bool_decide (api_key = []) then
    (Returned None, {| posts := 0; sleeps := [] |})
  else if bool_decide (txt = []) || (len (strip txt) <? min_length) then
    (Returned None, {| posts := 0; sleeps := [] |})
  else request_loop retries post (py_range (retries + 1)).

Definition generate_comment := generate_with 10.


(** [generate_sarcastic_comment_via_deepseek] and
    [generate_detailed_sarcastic_comment_via_deepseek]: a new client
    and the default [retries=2]. *)
Definition generate_sarcastic_comment_via_deepseek (api_key txt : pystr)
    (post : Z → post_result) : outcome (option pystr) * api_effects :=
  generate_comment api_key txt 2 post.


(** An attempt after which the loop goes on when attempts are left. *)
Definition retryable (r : post_result) : bool :=
  match r with
  | Response status_code body =>
      if status_code =? 200 then
        match body with BodyRequestException => true | _ => false end
      else if status_code =? 429 then true
      else if status_code =? 401 then false
      else 500 <=? status_code
  | RaisesTimeout | RaisesRequestException => true
  | RaisesOtherException => false
  end.

(** What the call returns when an attempt that is not [retryable] ends
    it. *)
Definition final_result (r : post_result) : outcome (option pystr) :=
  match r with
  | Response status_code body =>
      if status_code =? 200 then
        match body with
        | Content content => Returned (Some (strip content))
        | BodyRequestException => Returned None
        | BodyOtherException => Raised
        end
      else Returned None
  | RaisesOtherException => Raised
  | _ => Returned None
  end.

(** The waits before the attempts 1, ..., [k]: 1, 2, 4, ... seconds. *)
Definition backoff (k : nat) : list Z := (λ i, 2 ^ i) <$> seqZ 0 (Z.of_nat k).

(* ===================================================================== *)
(** * src/comment_generator.py *)
(* ===================================================================== *)

(** [needle in hay] on strings. *)
Fixpoint starts_with (needle hay : pystr) : bool :=
  match needle, hay with
  | [], _ => true
  | _ :: _, [] => false
  | c :: needle', d :: hay' => (c =? d) && starts_with needle' hay'
  end.

Fixpoint contains (needle hay : pystr) : bool :=
  starts_with needle hay
  || match hay with
     | [] => false
     | _ :: hay' => contains needle hay'
     end.

(** [re.split(r'[.!?]+', text)]: the pieces between the runs of the
    three marks, empty pieces at both ends included. [piece] is the
    piece being read, in reverse, and [in_run] says that the last
    character was a mark. *)
Definition is_sentence_mark (c : Z) : bool :=
  (c =? 46) || (c =? 33) || (c =? 63).

Fixpoint split_sentences_from (piece : pystr) (in_run : bool) (s : pystr)
  : list pystr :=
  match s with
  | [] => [reverse piece]
  | c :: r =>
      if is_sentence_mark c then
        if in_run then split_sentences_from piece true r
        else reverse piece :: split_sentences_from [] true r
      else split_sentences_from (c :: piece) false r
  end.

Definition split_sentences (s : pystr) : list pystr :=
  split_sentences_from [] false s.

(** [s.split()]: the runs of characters that are not white space. *)
Fixpoint split_words_from (word : pystr) (s : pystr) : list pystr :=
  match s with
  | [] => match word with [] => [] | _ => [reverse word] end
  | c :: r =>
      if isspace c then
        match word with
        | [] => split_words_from [] r
        | _ => reverse word :: split_words_from [] r
        end
      else split_words_from (c :: word) r
  end.

Definition split_words (s : pystr) : list pystr := split_words_from [] s.

(** [template.format(context=value)] on a template whose only braces
    are fields [{context}], as the templates here: every field is
    replaced by the value. [skip] counts the characters of a field
    still to be passed over. *)
(** "{context}" *)
Definition context_field : pystr :=
  [123; 99; 111; 110; 116; 101; 120; 116; 125].

(** "{claim}" *)
Definition claim_field : pystr :=
  [123; 99; 108; 97; 105; 109; 125].

(** "..." *)
Definition ellipsis : pystr :=
  [46; 46; 46].

Fixpoint format_from (skip : nat) (value template : pystr) : pystr :=
  match template with
  | [] => []
  | c :: r =>
      match skip with
      | S k => format_from k value r
      | O =>
          if starts_with context_field template
          then value ++ format_from 8 value r
          else c :: format_from 0 value r
      end
  end.

Definition format_context (template value : pystr) : pystr :=
  format_from 0 value template.

(** The keys of [self.templates]. *)
Inductive message_type : Type :=
  | factual_claim
  | exaggeration
  | contradiction
  | general.

(** [self.templates['factual_claim']] *)
Definition templates_factual_claim : list pystr :=
  [
   (* "Интересная интерпретация фактов, особенно учитывая, что {context}" *)
   [1048; 1085; 1090; 1077; 1088; 1077; 1089; 1085; 1072; 1103; 32; 1080;
    1085; 1090; 1077; 1088; 1087; 1088; 1077; 1090; 1072; 1094; 1080; 1103;
    32; 1092; 1072; 1082; 1090; 1086; 1074; 44; 32; 1086; 1089; 1086; 1073;
    1077; 1085; 1085; 1086; 32; 1091; 1095; 1080; 1090; 1099; 1074; 1072;
    1103; 44; 32; 1095; 1090; 1086; 32; 123; 99; 111; 110; 116; 101; 120;
    116; 125];
   (* "Версия событий, безусловно, оригинальная. Жаль только, что реальность
          придерживается другого мнения" *)
   [1042; 1077; 1088; 1089; 1080; 1103; 32; 1089; 1086; 1073; 1099; 1090;
    1080; 1081; 44; 32; 1073; 1077; 1079; 1091; 1089; 1083; 1086; 1074;
    1085; 1086; 44; 32; 1086; 1088; 1080; 1075; 1080; 1085; 1072; 1083;
    1100; 1085; 1072; 1103; 46; 32; 1046; 1072; 1083; 1100; 32; 1090; 1086;
    1083; 1100; 1082; 1086; 44; 32; 1095; 1090; 1086; 32; 1088; 1077; 1072;
    1083; 1100; 1085; 1086; 1089; 1090; 1100; 32; 1087; 1088; 1080; 1076;
    1077; 1088; 1078; 1080; 1074; 1072; 1077; 1090; 1089; 1103; 32; 1076;
    1088; 1091; 1075; 1086; 1075; 1086; 32; 1084; 1085; 1077; 1085; 1080;
    1103];
   (* "Факты, безусловно, впечатляют. Если, конечно, считать фактами
          {claim}" *)
   [1060; 1072; 1082; 1090; 1099; 44; 32; 1073; 1077; 1079; 1091; 1089;
    1083; 1086; 1074; 1085; 1086; 44; 32; 1074; 1087; 1077; 1095; 1072;
    1090; 1083; 1103; 1102; 1090; 46; 32; 1045; 1089; 1083; 1080; 44; 32;
    1082; 1086; 1085; 1077; 1095; 1085; 1086; 44; 32; 1089; 1095; 1080;
    1090; 1072; 1090; 1100; 32; 1092; 1072; 1082; 1090; 1072; 1084; 1080;
    32; 123; 99; 108; 97; 105; 109; 125]
  ].

(** [self.templates['exaggeration']] *)
Definition templates_exaggeration : list pystr :=
  [
   (* "Логика железная, если игнорировать несколько ключевых деталей" *)
   [1051; 1086; 1075; 1080; 1082; 1072; 32; 1078; 1077; 1083; 1077; 1079;
    1085; 1072; 1103; 44; 32; 1077; 1089; 1083; 1080; 32; 1080; 1075; 1085;
    1086; 1088; 1080; 1088; 1086; 1074; 1072; 1090; 1100; 32; 1085; 1077;
    1089; 1082; 1086; 1083; 1100; 1082; 1086; 32; 1082; 1083; 1102; 1095;
    1077; 1074; 1099; 1093; 32; 1076; 1077; 1090; 1072; 1083; 1077; 1081];
   (* "Преувеличение? Нет, что вы! Это просто альтернативная математика" *)
   [1055; 1088; 1077; 1091; 1074; 1077; 1083; 1080; 1095; 1077; 1085; 1080;
    1077; 63; 32; 1053; 1077; 1090; 44; 32; 1095; 1090; 1086; 32; 1074;
    1099; 33; 32; 1069; 1090; 1086; 32; 1087; 1088; 1086; 1089; 1090; 1086;
    32; 1072; 1083; 1100; 1090; 1077; 1088; 1085; 1072; 1090; 1080; 1074;
    1085; 1072; 1103; 32; 1084; 1072; 1090; 1077; 1084; 1072; 1090; 1080;
    1082; 1072];
   (* "Цифры говорят сами за себя, но почему-то не в ту сторону" *)
   [1062; 1080; 1092; 1088; 1099; 32; 1075; 1086; 1074; 1086; 1088; 1103;
    1090; 32; 1089; 1072; 1084; 1080; 32; 1079; 1072; 32; 1089; 1077; 1073;
    1103; 44; 32; 1085; 1086; 32; 1087; 1086; 1095; 1077; 1084; 1091; 45;
    1090; 1086; 32; 1085; 1077; 32; 1074; 32; 1090; 1091; 32; 1089; 1090;
    1086; 1088; 1086; 1085; 1091];
   (* "Масштаб впечатляет, особенно если использовать специальную систему
          измерений" *)
   [1052; 1072; 1089; 1096; 1090; 1072; 1073; 32; 1074; 1087; 1077; 1095;
    1072; 1090; 1083; 1103; 1077; 1090; 44; 32; 1086; 1089; 1086; 1073;
    1077; 1085; 1085; 1086; 32; 1077; 1089; 1083; 1080; 32; 1080; 1089;
    1087; 1086; 1083; 1100; 1079; 1086; 1074; 1072; 1090; 1100; 32; 1089;
    1087; 1077; 1094; 1080; 1072; 1083; 1100; 1085; 1091; 1102; 32; 1089;
    1080; 1089; 1090; 1077; 1084; 1091; 32; 1080; 1079; 1084; 1077; 1088;
    1077; 1085; 1080; 1081]
  ].

(** [self.templates['contradiction']] *)
Definition templates_contradiction : list pystr :=
  [
   (* "Любопытное сочетание утверждений. Особенно интересно, как они друг
          другу противоречат" *)
   [1051; 1102; 1073; 1086; 1087; 1099; 1090; 1085; 1086; 1077; 32; 1089;
    1086; 1095; 1077; 1090; 1072; 1085; 1080; 1077; 32; 1091; 1090; 1074;
    1077; 1088; 1078; 1076; 1077; 1085; 1080; 1081; 46; 32; 1054; 1089;
    1086; 1073; 1077; 1085; 1085; 1086; 32; 1080; 1085; 1090; 1077; 1088;
    1077; 1089; 1085; 1086; 44; 32; 1082; 1072; 1082; 32; 1086; 1085; 1080;
    32; 1076; 1088; 1091; 1075; 32; 1076; 1088; 1091; 1075; 1091; 32; 1087;
    1088; 1086; 1090; 1080; 1074; 1086; 1088; 1077; 1095; 1072; 1090];
   (* "Две мысли одновременно - это всегда интересно. Особенно когда они
          взаимоисключающие" *)
   [1044; 1074; 1077; 32; 1084; 1099; 1089; 1083; 1080; 32; 1086; 1076;
    1085; 1086; 1074; 1088; 1077; 1084; 1077; 1085; 1085; 1086; 32; 45; 32;
    1101; 1090; 1086; 32; 1074; 1089; 1077; 1075; 1076; 1072; 32; 1080;
    1085; 1090; 1077; 1088; 1077; 1089; 1085; 1086; 46; 32; 1054; 1089;
    1086; 1073; 1077; 1085; 1085; 1086; 32; 1082; 1086; 1075; 1076; 1072;
    32; 1086; 1085; 1080; 32; 1074; 1079; 1072; 1080; 1084; 1086; 1080;
    1089; 1082; 1083; 1102; 1095; 1072; 1102; 1097; 1080; 1077];
   (* "Логическая последовательность на высоте, если читать предложения в
          обратном порядке" *)
   [1051; 1086; 1075; 1080; 1095; 1077; 1089; 1082; 1072; 1103; 32; 1087;
    1086; 1089; 1083; 1077; 1076; 1086; 1074; 1072; 1090; 1077; 1083; 1100;
    1085; 1086; 1089; 1090; 1100; 32; 1085; 1072; 32; 1074; 1099; 1089;
    1086; 1090; 1077; 44; 32; 1077; 1089; 1083; 1080; 32; 1095; 1080; 1090;
    1072; 1090; 1100; 32; 1087; 1088; 1077; 1076; 1083; 1086; 1078; 1077;
    1085; 1080; 1103; 32; 1074; 32; 1086; 1073; 1088; 1072; 1090; 1085;
    1086; 1084; 32; 1087; 1086; 1088; 1103; 1076; 1082; 1077]
  ].

(** [self.templates['general']] *)
Definition templates_general : list pystr :=
  [
   (* "Точка зрения, безусловно, имеет право на существование. Как и любая
          другая" *)
   [1058; 1086; 1095; 1082; 1072; 32; 1079; 1088; 1077; 1085; 1080; 1103;
    44; 32; 1073; 1077; 1079; 1091; 1089; 1083; 1086; 1074; 1085; 1086; 44;
    32; 1080; 1084; 1077; 1077; 1090; 32; 1087; 1088; 1072; 1074; 1086; 32;
    1085; 1072; 32; 1089; 1091; 1097; 1077; 1089; 1090; 1074; 1086; 1074;
    1072; 1085; 1080; 1077; 46; 32; 1050; 1072; 1082; 32; 1080; 32; 1083;
    1102; 1073; 1072; 1103; 32; 1076; 1088; 1091; 1075; 1072; 1103];
   (* "Интересный подход к интерпретации реальности" *)
   [1048; 1085; 1090; 1077; 1088; 1077; 1089; 1085; 1099; 1081; 32; 1087;
    1086; 1076; 1093; 1086; 1076; 32; 1082; 32; 1080; 1085; 1090; 1077;
    1088; 1087; 1088; 1077; 1090; 1072; 1094; 1080; 1080; 32; 1088; 1077;
    1072; 1083; 1100; 1085; 1086; 1089; 1090; 1080];
   (* "Версия событий оригинальна, хотя и не совсем соответствует
          общепринятым представлениям" *)
   [1042; 1077; 1088; 1089; 1080; 1103; 32; 1089; 1086; 1073; 1099; 1090;
    1080; 1081; 32; 1086; 1088; 1080; 1075; 1080; 1085; 1072; 1083; 1100;
    1085; 1072; 44; 32; 1093; 1086; 1090; 1103; 32; 1080; 32; 1085; 1077;
    32; 1089; 1086; 1074; 1089; 1077; 1084; 32; 1089; 1086; 1086; 1090;
    1074; 1077; 1090; 1089; 1090; 1074; 1091; 1077; 1090; 32; 1086; 1073;
    1097; 1077; 1087; 1088; 1080; 1085; 1103; 1090; 1099; 1084; 32; 1087;
    1088; 1077; 1076; 1089; 1090; 1072; 1074; 1083; 1077; 1085; 1080; 1103;
    1084];
   (* "Логика своеобразная, но кто я такой, чтобы спорить с альтернативной
          математикой" *)
   [1051; 1086; 1075; 1080; 1082; 1072; 32; 1089; 1074; 1086; 1077; 1086;
    1073; 1088; 1072; 1079; 1085; 1072; 1103; 44; 32; 1085; 1086; 32; 1082;
    1090; 1086; 32; 1103; 32; 1090; 1072; 1082; 1086; 1081; 44; 32; 1095;
    1090; 1086; 1073; 1099; 32; 1089; 1087; 1086; 1088; 1080; 1090; 1100;
    32; 1089; 32; 1072; 1083; 1100; 1090; 1077; 1088; 1085; 1072; 1090;
    1080; 1074; 1085; 1086; 1081; 32; 1084; 1072; 1090; 1077; 1084; 1072;
    1090; 1080; 1082; 1086; 1081];
   (* "Утверждение смелое, особенно если учесть, что {context}" *)
   [1059; 1090; 1074; 1077; 1088; 1078; 1076; 1077; 1085; 1080; 1077; 32;
    1089; 1084; 1077; 1083; 1086; 1077; 44; 32; 1086; 1089; 1086; 1073;
    1077; 1085; 1085; 1086; 32; 1077; 1089; 1083; 1080; 32; 1091; 1095;
    1077; 1089; 1090; 1100; 44; 32; 1095; 1090; 1086; 32; 123; 99; 111; 110;
    116; 101; 120; 116; 125]
  ].

(** [self.exaggeration_keywords] *)
Definition exaggeration_keywords : list pystr :=
  [
   (* "все" *)
   [1074; 1089; 1077];
   (* "никогда" *)
   [1085; 1080; 1082; 1086; 1075; 1076; 1072];
   (* "всегда" *)
   [1074; 1089; 1077; 1075; 1076; 1072];
   (* "абсолютно" *)
   [1072; 1073; 1089; 1086; 1083; 1102; 1090; 1085; 1086];
   (* "полностью" *)
   [1087; 1086; 1083; 1085; 1086; 1089; 1090; 1100; 1102];
   (* "совершенно" *)
   [1089; 1086; 1074; 1077; 1088; 1096; 1077; 1085; 1085; 1086];
   (* "миллионы" *)
   [1084; 1080; 1083; 1083; 1080; 1086; 1085; 1099];
   (* "тысячи" *)
   [1090; 1099; 1089; 1103; 1095; 1080];
   (* "всеобщий" *)
   [1074; 1089; 1077; 1086; 1073; 1097; 1080; 1081];
   (* "тотальный" *)
   [1090; 1086; 1090; 1072; 1083; 1100; 1085; 1099; 1081];
   (* "катастрофа" *)
   [1082; 1072; 1090; 1072; 1089; 1090; 1088; 1086; 1092; 1072]
  ].

(** [self.contradiction_keywords] *)
Definition contradiction_keywords : list pystr :=
  [
   (* "но" *)
   [1085; 1086];
   (* "однако" *)
   [1086; 1076; 1085; 1072; 1082; 1086];
   (* "хотя" *)
   [1093; 1086; 1090; 1103];
   (* "несмотря на" *)
   [1085; 1077; 1089; 1084; 1086; 1090; 1088; 1103; 32; 1085; 1072];
   (* "в то же время" *)
   [1074; 32; 1090; 1086; 32; 1078; 1077; 32; 1074; 1088; 1077; 1084; 1103];
   (* "с другой стороны" *)
   [1089; 32; 1076; 1088; 1091; 1075; 1086; 1081; 32; 1089; 1090; 1086;
    1088; 1086; 1085; 1099]
  ].


(** "Сообщение слишком короткое для глубокого анализа. Но идея
    интересная." *)
Definition too_short_comment : pystr :=
  [1057; 1086; 1086; 1073; 1097; 1077; 1085; 1080; 1077; 32; 1089; 1083;
   1080; 1096; 1082; 1086; 1084; 32; 1082; 1086; 1088; 1086; 1090; 1082;
   1086; 1077; 32; 1076; 1083; 1103; 32; 1075; 1083; 1091; 1073; 1086;
   1082; 1086; 1075; 1086; 32; 1072; 1085; 1072; 1083; 1080; 1079; 1072;
   46; 32; 1053; 1086; 32; 1080; 1076; 1077; 1103; 32; 1080; 1085; 1090;
   1077; 1088; 1077; 1089; 1085; 1072; 1103; 46].

(** "цифры говорят о другом" *)
Definition numbers_context : pystr :=
  [1094; 1080; 1092; 1088; 1099; 32; 1075; 1086; 1074; 1086; 1088; 1103;
   1090; 32; 1086; 32; 1076; 1088; 1091; 1075; 1086; 1084].

Definition templates (t : message_type) : list pystr :=
  match t with
  | factual_claim => templates_factual_claim
  | exaggeration => templates_exaggeration
  | contradiction => templates_contradiction
  | general => templates_general
  end.

(** [random.choice(l)] when the generator draws the index [draw]. *)
Definition random_choice (draw : nat) (l : list pystr) : pystr :=
  default [] (l !! draw).

Section SarcasticCommentGenerator.

(** Two functions of the Unicode tables of the interpreter: [str.lower]
    and the test that a character is a decimal digit (what [\d]
    matches in a [str] pattern). *)
Variables (lower : pystr → pystr) (isdecimal : Z → bool).

(** [sum(1 for word in keywords if word in text_lower)]. *)
Definition count_keywords (keywords : list pystr) (text_lower : pystr) : Z :=
  len (filter (λ word, contains word text_lower = true) keywords).

(** [SarcasticCommentGenerator._detect_message_type]. *)
Definition _detect_message_type (txt : pystr) : message_type :=
  let text_lower := lower txt in
  let exaggeration_count := count_keywords exaggeration_keywords text_lower in
  if 2 <=? exaggeration_count then exaggeration
  else
    let contradiction_count :=
      count_keywords contradiction_keywords text_lower in
    if 2 <=? contradiction_count then contradiction
    else if existsb isdecimal txt then factual_claim
    else general.

(** The loop over the sentences of [_extract_context]. *)
Fixpoint first_exaggerated (sentences : list pystr) : option pystr :=
  match sentences with
  | [] => None
  | sentence :: rest =>
      if existsb (λ word, contains word (lower sentence)) exaggeration_keywords
      then
        let words := take 5 (split_words sentence) in
        Some (join [32] words ++ ellipsis)
      else first_exaggerated rest
  end.

(** [SarcasticCommentGenerator._extract_context]. *)
Definition _extract_context (txt : pystr) : option pystr :=
  if existsb isdecimal txt then Some numbers_context
  else first_exaggerated (split_sentences txt).

(** [SarcasticCommentGenerator.generate_sarcastic_comment];
    [draw_template] and [draw_general] are the indices that the two
    calls of [random.choice] draw. *)
Definition local_sarcastic_comment (txt : pystr)
    (draw_template draw_general : nat) : pystr :=
  if bool_decide (txt = []) || (len (strip txt) <? 10) then too_short_comment
  else
    let message_type := _detect_message_type txt in
    let context := _extract_context txt in
    let template := random_choice draw_template (templates message_type) in
    if contains context_field template then
      match context with
      | Some (c :: r) => format_context template (c :: r)
      | _ => random_choice draw_general (templates general)
      end
    else template.

(** The draws of one call of [generate_detailed_sarcastic_comment]:
    those of the two [random.choice] and the two different indices of
    [random.sample(additional_phrases, 2)]. *)
Record draws := {
  draw_template : nat;
  draw_general : nat;
  draw_phrase1 : nat;
  draw_phrase2 : nat
}.

(** The module function [generate_sarcastic_comment]: the API, and the
    local generator when the API gives nothing or raises. *)
Definition generate_sarcastic_comment (api_key : pystr)
    (post : Z → post_result) (d : draws) (txt : pystr)
  : outcome pystr * api_effects :=
  let api := generate_sarcastic_comment_via_deepseek api_key txt post in
  match api.1 with
  | Returned (Some (c :: r)) => (Returned (c :: r), api.2)
  | _ =>
      (Returned (local_sarcastic_comment txt (draw_template d)
                                         (draw_general d)),
       api.2)
  end.


End SarcasticCommentGenerator.

(* ===================================================================== *)
(** * Runs of calls *)
(* ===================================================================== *)

(** One call [is_allowed(user_id)] made when the clock reads [now]; the
    second component collects the calls that were admitted. *)
Definition admit_step (st : RateLimiter * list (Z * Z)) (c : Z * Z)
  : RateLimiter * list (Z * Z) :=
  let r := is_allowed st.1 c.1 c.2 in
  (r.2, if r.1 then st.2 ++ [c] else st.2).

(** A sequence of [is_allowed] calls, each a pair (user, clock reading),
    made one after the other on [self]. *)
Definition run_admits (self : RateLimiter) (calls : list (Z * Z))
  : RateLimiter * list (Z * Z) :=
  foldl admit_step (self, []) calls.

(** The admission timestamps of one user. *)
Definition admitted_at (user_id : Z) (log : list (Z * Z)) : list Z :=
  (filter (λ c : Z * Z, c.1 = user_id) log).*2.

(** The timestamps of [l] inside the trailing window ending at [t]. *)
Definition in_window (window t : Z) (l : list Z) : list Z :=
  filter (λ x, t - window < x ∧ x ≤ t) l.

(** The invariant of a run whose clock has reached [T]: the limiter
    still has its configuration, no admission lies in the future, the
    stored list of a user agrees with the user's admissions on every
    window that a later call can look at, and no trailing window holds
    more than [limit] admissions. *)
Definition window_inv (limit window T : Z)
    (st : RateLimiter * list (Z * Z)) : Prop :=
  max_messages st.1 = limit
  ∧ time_window st.1 = window
  ∧ (∀ u x, x ∈ admitted_at u st.2 → x ≤ T)
  ∧ (∀ u c, T - timedelta_seconds window ≤ c →
       filter (λ x, c < x) (history st.1 u)
       = filter (λ x, c < x) (admitted_at u st.2))
  ∧ (∀ u t, len (in_window (timedelta_seconds window) t
                            (admitted_at u st.2)) ≤ limit).

(** The specification's [WaitSeconds], in its own words: 0 without
    recorded timestamps, otherwise
    ceil(max(0, (oldestRecordedTimestamp + windowSeconds) - now)), the
    difference being a duration in seconds. *)
Definition ceil_seconds (d : Z) : Z := - ((- d) / 1000000).

Definition spec_WaitSeconds (self : RateLimiter) (user_id : Z) (now : Z) : Z :=
  match history self user_id with
  | [] => 0
  | t :: r =>
      ceil_seconds
        (Z.max 0 (py_min t r + timedelta_seconds (time_window self) - now))
  end.

(** The limiter of src/main.py: [RateLimiter(config.RATE_LIMIT_MESSAGES,
    config.RATE_LIMIT_WINDOW)]. *)
Definition rate_limiter : RateLimiter :=
  new_RateLimiter (RATE_LIMIT_MESSAGES config) (RATE_LIMIT_WINDOW config).

(** One call [add_message(user_id, text, message_id)] with the two
    readings of the clock that it takes. *)
Record append_call := {
  ac_user : Z;
  ac_text : pystr;
  ac_id : option Z;
  ac_now_msg : Z;
  ac_now : Z
}.

Definition append_step (cfg : Config) (self : ContextManager)
    (c : append_call) : ContextManager :=
  add_message cfg self (ac_user c) (ac_text c) (ac_id c)
              (ac_now_msg c) (ac_now c).

(** A sequence of [add_message] calls made one after the other. *)
Definition run_appends (cfg : Config) (self : ContextManager)
    (calls : list append_call) : ContextManager :=
  foldl (append_step cfg) self calls.

(** The test that [add_message] makes before it stores anything. *)
Definition too_short (txt : pystr) : bool :=
  bool_decide (txt = []) || (len (strip txt) <? 5).

(** The entries that the calls of one user ask to store, in call order. *)
Definition entries_of (user_id : Z) (calls : list append_call)
  : list ContextMessage :=
  omap (λ c,
          if bool_decide (ac_user c = user_id) && negb (too_short (ac_text c))
          then Some {| text := strip (ac_text c);
                       timestamp := ac_now_msg c;
                       message_id := ac_id c |}
          else None)
       calls.

(** The most recent [n] elements of a list, in their order. *)
Definition keep_last {A} (n : Z) (l : list A) : list A :=
  drop (length l - Z.to_nat n) l.

(** The buffer of a user, empty when the user has none. *)
Definition buffer (self : ContextManager) (user_id : Z)
  : list ContextMessage :=
  default [] (user_contexts self !! user_id).

(** The character budget of a rendering: the [max_chars] of
    [_truncate_context], four characters for each of the
    [CONTEXT_MAX_TOKENS] tokens. *)
Definition max_rendered_size (cfg : Config) : Z := CONTEXT_MAX_TOKENS cfg * 4.

(** The rendering of the last [i] entries of a buffer: the blocks that
    these entries have in the rendering of the whole buffer, joined by
    the separator. *)
Definition render_suffix (messages : list ContextMessage) (i : nat) : pystr :=
  join separator
       (map (λ p : Z * ContextMessage, block p.1 p.2)
            (enumerate (len messages - Z.of_nat i + 1)
                       (drop (length messages - i) messages))).

(** "hello", and a call that stores it for user 1 at time [t]. *)
Definition hello : pystr := [104; 101; 108; 108; 111].

Definition hello_at (t : Z) : append_call :=
  {| ac_user := 1; ac_text := hello; ac_id := None;
     ac_now_msg := t; ac_now := t |}.

(** A text of [n] letters "a", and the store that holds one message
    of 15977 letters for user 1: its rendering has 24 + 15977 = 16001
    characters. *)
Definition letters (n : Z) : pystr := replicate (Z.to_nat n) 97.

Definition one_long_message : ContextManager :=
  add_message config new_ContextManager 1 (letters 15977) None 0 0.

(** Two messages of 9000 letters stored one second apart: together
    they are over the budget, the later one alone is not. *)
Definition two_long_messages : ContextManager :=
  add_message config
    (add_message config new_ContextManager 1 (letters 9000) None 0 0)
    1 (letters 9000) None 1000000 1000000.

(** A message of 9000 letters followed by the same message of 4000
    letters stored twice with one clock reading. *)
Definition repeated_message : ContextManager :=
  add_message config
    (add_message config
       (add_message config new_ContextManager 1 (letters 9000) None 0 0)
       1 (letters 4000) None 1000000 1000000)
    1 (letters 4000) None 1000000 1000000.

(** A call on the limiter: [is_allowed(user_id)] or
    [get_wait_time(user_id)], with the clock reading it takes. *)
Inductive limiter_call : Type :=
  | IsAllowed (user_id now : Z)
  | GetWaitTime (user_id now : Z).

Definition limiter_step (self : RateLimiter) (c : limiter_call)
  : RateLimiter :=
  match c with
  | IsAllowed user_id now => (is_allowed self user_id now).2
  | GetWaitTime user_id now => (get_wait_time self user_id now).2
  end.

(** A sequence of calls of both kinds made one after the other. *)
Definition run_limiter (self : RateLimiter) (calls : list limiter_call)
  : RateLimiter :=
  foldl limiter_step self calls.

(** A call on the store, with the clock readings it takes. *)
Inductive store_call : Type :=
  | AddMessage (user_id : Z) (txt : pystr) (mid : option Z) (now_msg now : Z)
  | GetContextText (user_id now : Z)
  | HasContext (user_id now : Z)
  | GetMessageCount (user_id now : Z)
  | ClearContext (user_id : Z)
  | CleanupExpiredContexts (clock : Z → Z).

Definition store_step (cfg : Config) (self : ContextManager) (c : store_call)
  : ContextManager :=
  match c with
  | AddMessage user_id txt mid now_msg now =>
      add_message cfg self user_id txt mid now_msg now
  | GetContextText user_id now => (get_context_text cfg self user_id now).2
  | HasContext user_id now => (has_context cfg self user_id now).2
  | GetMessageCount user_id now => (get_message_count cfg self user_id now).2
  | ClearContext user_id => clear_context self user_id
  | CleanupExpiredContexts clock => (cleanup_expired_contexts cfg self clock).2
  end.

(** A sequence of calls of any kind made one after the other. *)
Definition run_store (cfg : Config) (self : ContextManager)
    (calls : list store_call) : ContextManager :=
  foldl (store_step cfg) self calls.

(** What every store built by the methods looks like: a user has a
    buffer exactly when the user has an activity record; a stored
    buffer is not empty and holds at most [CONTEXT_MAX_MESSAGES]
    entries; a stored text is stripped and has at least 5 characters. *)
Definition store_wf (cfg : Config) (self : ContextManager) : Prop :=
  (∀ u, is_Some (user_contexts self !! u)
        ↔ is_Some (user_last_activity self !! u))
  ∧ (∀ u messages,
       user_contexts self !! u = Some messages →
       messages ≠ []
       ∧ len messages ≤ CONTEXT_MAX_MESSAGES cfg
       ∧ Forall (λ m, strip (text m) = text m ∧ 5 ≤ len (text m)) messages).

(** What a read can have done to the store: nothing, or the removal of
    the records of the user it asked for. *)
Definition same_or_cleared (u : Z) (self self' : ContextManager) : Prop :=
  self' = self ∨ self' = clear_context self u.

(** Three of the [exaggeration_keywords]: the first is part of the other
    two. *)
(** "все" *)
Definition keyword_vse : pystr :=
  [1074; 1089; 1077].

(** "всегда" *)
Definition keyword_vsegda : pystr :=
  [1074; 1089; 1077; 1075; 1076; 1072].

(** "всеобщий" *)
Definition keyword_vseobshchiy : pystr :=
  [1074; 1089; 1077; 1086; 1073; 1097; 1080; 1081].

(** [str.lower] on a text that is in lower case already, and the
    decimal digits of ASCII, for examples. *)
Definition lower_of_lowercase (s : pystr) : pystr := s.

Definition ascii_digit (c : Z) : bool := (48 <=? c) && (c <=? 57).

(* ===================================================================== *)
(** * Properties of the rate limiter *)
(* ===================================================================== *)

Section RateLimiterFacts.

Implicit Types (self : RateLimiter) (u v now t : Z) (h : list Z).

Lemma history_set_history_eq self u h : history (set_history self u h) u = h.
Proof. unfold history, set_history; simpl. by rewrite lookup_insert_eq. Qed.

Lemma history_set_history_ne self u v h :
  u ≠ v → history (set_history self u h) v = history self v.
Proof.
  intros Hne. unfold history, set_history; simpl.
  by rewrite lookup_insert_ne.
Qed.

Lemma is_allowed_max_messages self u now :
  max_messages (is_allowed self u now).2 = max_messages self.
Proof. unfold is_allowed. by case_bool_decide. Qed.

Lemma is_allowed_time_window self u now :
  time_window (is_allowed self u now).2 = time_window self.
Proof. unfold is_allowed. by case_bool_decide. Qed.

Lemma is_allowed_other self u v now :
  u ≠ v → history (is_allowed self u now).2 v = history self v.
Proof.
  intros Hne. unfold is_allowed.
  case_bool_decide; simpl; by rewrite history_set_history_ne.
Qed.

(** What [is_allowed] leaves in the list of the calling user. *)
Lemma is_allowed_history self u now :
  let kept :=
    filter (λ x, now - timedelta_seconds (time_window self) < x)
           (history self u) in
  history (is_allowed self u now).2 u
  = if (is_allowed self u now).1 then kept ++ [now] else kept.
Proof.
  unfold is_allowed. case_bool_decide; simpl;
    by rewrite history_set_history_eq.
Qed.

Lemma is_allowed_true_iff self u now :
  (is_allowed self u now).1 = true
  ↔ len (filter (λ x, now - timedelta_seconds (time_window self) < x)
                (history self u)) < max_messages self.
Proof.
  unfold is_allowed. case_bool_decide; simpl; split; intros; try done; lia.
Qed.

Lemma length_filter_impl {A} (P Q : A → Prop)
    `{∀ x, Decision (P x)} `{∀ x, Decision (Q x)} (l : list A) :
  (∀ x, P x → Q x) → len (filter P l) ≤ len (filter Q l).
Proof.
  intros HPQ. unfold len. induction l as [|x l IH]; [done|].
  rewrite !filter_cons.
  destruct (decide (P x)) as [HP|HP]; destruct (decide (Q x)) as [HQ|HQ];
    simpl; try lia.
  exfalso. auto.
Qed.

Lemma filter_filter_stronger {A} (P Q : A → Prop)
    `{∀ x, Decision (P x)} `{∀ x, Decision (Q x)} (l : list A) :
  (∀ x, P x → Q x) → filter P (filter Q l) = filter P l.
Proof.
  intros HPQ. induction l as [|x l IH]; [done|].
  rewrite !filter_cons.
  destruct (decide (Q x)) as [HQ|HQ]; destruct (decide (P x)) as [HP|HP];
    rewrite ?filter_cons; try destruct (decide (P x)); try done;
    try (by rewrite IH).
  exfalso. auto.
Qed.

Lemma admitted_at_app u (l1 l2 : list (Z * Z)) :
  admitted_at u (l1 ++ l2) = admitted_at u l1 ++ admitted_at u l2.
Proof. unfold admitted_at. by rewrite filter_app, fmap_app. Qed.

Lemma admitted_at_singleton u v now :
  admitted_at u [(v, now)] = if decide (v = u) then [now] else [].
Proof.
  unfold admitted_at. rewrite filter_cons. simpl.
  by destruct (decide (v = u)).
Qed.

Lemma window_inv_init limit window T :
  0 ≤ limit → window_inv limit window T (new_RateLimiter limit window, []).
Proof.
  intros Hl. unfold window_inv; simpl.
  split; [done|]. split; [done|]. split; [|split].
  - intros u x Hx. by apply elem_of_nil in Hx.
  - done.
  - intros u t. unfold in_window, admitted_at, len; simpl. lia.
Qed.

Lemma window_inv_step limit window T st c :
  window_inv limit window T st → T ≤ c.2 →
  window_inv limit window c.2 (admit_step st c).
Proof.
  destruct st as [self log], c as [v now]; simpl.
  intros (Hmax & Hwin & Hle & Hagree & Hcount) HT.
  simpl in *.
  assert (Hkept : filter (λ x, now - timedelta_seconds window < x)
                         (history self v)
                  = filter (λ x, now - timedelta_seconds window < x)
                           (admitted_at v log))
    by (apply Hagree; lia).
  pose proof (is_allowed_history self v now) as Hh.
  pose proof (is_allowed_true_iff self v now) as Hok.
  rewrite Hwin in Hh, Hok. rewrite Hmax in Hok. simpl in Hh.
  unfold window_inv, admit_step; simpl.
  rewrite is_allowed_max_messages, is_allowed_time_window.
  split; [done|]. split; [done|].
  destruct (is_allowed self v now).1 eqn:Hres.
  - (* admitted: [now] joins the list and the log *)
    assert (Hlt : len (filter (λ x, now - timedelta_seconds window < x)
                              (admitted_at v log)) < limit)
      by (rewrite <- Hkept; by apply Hok).
    split; [|split].
    + intros u x. rewrite admitted_at_app, elem_of_app, admitted_at_singleton.
      intros [Hx|Hx]; [apply Hle in Hx; lia|].
      destruct (decide (v = u)); [|by apply elem_of_nil in Hx].
      apply list_elem_of_singleton in Hx. lia.
    + intros u c Hc.
      rewrite admitted_at_app, filter_app, admitted_at_singleton.
      destruct (decide (v = u)) as [->|Hne].
      * rewrite Hh, filter_app.
        rewrite (filter_filter_stronger (λ x, c < x)) by (intros; lia).
        by rewrite Hagree by lia.
      * rewrite is_allowed_other by done. rewrite Hagree by lia.
        by rewrite filter_nil, app_nil_r.
    + intros u t. rewrite admitted_at_app, admitted_at_singleton.
      unfold in_window. rewrite filter_app. unfold len. rewrite length_app.
      specialize (Hcount u t). unfold in_window, len in Hcount.
      destruct (decide (v = u)) as [->|Hne]; [|simpl; lia].
      rewrite filter_cons.
      destruct (decide (t - timedelta_seconds window < now ∧ now ≤ t))
        as [[Hlo Hhi]|Hout]; simpl; [|lia].
      assert (len (filter (λ x, t - timedelta_seconds window < x ∧ x ≤ t)
                          (admitted_at u log))
              ≤ len (filter (λ x, now - timedelta_seconds window < x)
                            (admitted_at u log))) as Hmono
        by (apply length_filter_impl; intros; lia).
      unfold len in Hlt, Hmono. lia.
  - (* rejected: the list is pruned, the log is unchanged *)
    split; [|split].
    + intros u x Hx. apply Hle in Hx. lia.
    + intros u c Hc.
      destruct (decide (v = u)) as [->|Hne].
      * rewrite Hh.
        rewrite (filter_filter_stronger (λ x, c < x)) by (intros; lia).
        apply Hagree. lia.
      * rewrite is_allowed_other by done. apply Hagree. lia.
    + done.
Qed.

Lemma window_inv_run limit window calls :
  ∀ st T,
    window_inv limit window T st →
    Forall (λ c : Z * Z, T ≤ c.2) calls →
    StronglySorted Z.le (calls.*2) →
    ∃ T', window_inv limit window T' (foldl admit_step st calls).
Proof.
  induction calls as [|c calls IH]; intros st T Hinv Hge Hsorted; simpl.
  - by exists T.
  - apply Forall_cons in Hge as [Hc Hge].
    rewrite fmap_cons in Hsorted.
    apply StronglySorted_inv in Hsorted as [Hsorted Hhd].
    apply (IH _ c.2).
    + by apply (window_inv_step _ _ T).
    + apply Forall_forall. intros d Hd.
      rewrite Forall_forall in Hhd. apply Hhd.
      apply list_elem_of_fmap. by exists d.
    + done.
Qed.

Lemma get_wait_time_history self u v now :
  history (get_wait_time self u now).2 v = history self v.
Proof.
  unfold get_wait_time.
  assert (history (set_history self u (history self u)) v = history self v)
    as Hset.
  { destruct (decide (u = v)) as [->|Hne].
    - by rewrite history_set_history_eq.
    - by rewrite history_set_history_ne. }
  by destruct (history self u).
Qed.

(** [get_wait_time] in closed form: the whole seconds of the remaining
    time, rounded toward zero and never negative. *)
Lemma get_wait_time_value self u now :
  (get_wait_time self u now).1
  = match history self u with
    | [] => 0
    | t :: r =>
        Z.max 0 (Z.quot (py_min t r + timedelta_seconds (time_window self)
                         - now) 1000000)
    end.
Proof. unfold get_wait_time. by destruct (history self u). Qed.

End RateLimiterFacts.

(** ** The claims about the rate limiter *)

(** Closes [StronglySorted Z.le l] on a list of numerals. *)
Ltac sorted_by_lia :=
  repeat (first [ apply SSorted_nil | apply SSorted_cons
                | apply Forall_nil_2 | apply Forall_cons_2 ]);
  lia.

(** C1. Sliding window. Along every sequence of [is_allowed] calls made
    on a fresh limiter with a clock that does not go back, and for every
    user and every instant [t], at most [max_messages] of the user's
    admissions carry a timestamp in the trailing window
    (t - time_window, t]. Each call returns [True] exactly when, after
    the timestamps <= now - time_window are pruned, fewer than
    [max_messages] remain; it stores [now] only in that case (a
    rejection stores only the pruned list) and leaves the other users'
    lists alone. *)
Theorem is_allowed_sliding_window (limit window : Z) (calls : list (Z * Z)) :
  0 ≤ limit →
  StronglySorted Z.le (calls.*2) →
  (∀ u t,
     len (in_window (timedelta_seconds window) t
            (admitted_at u
               (run_admits (new_RateLimiter limit window) calls).2))
     ≤ limit)
  ∧ (∀ self u now,
       let kept :=
         filter (λ x, ¬ x ≤ now - timedelta_seconds (time_window self))
                (history self u) in
       ((is_allowed self u now).1 = true ↔ len kept < max_messages self)
       ∧ history (is_allowed self u now).2 u
         = (if (is_allowed self u now).1 then kept ++ [now] else kept)
       ∧ (∀ v, u ≠ v → history (is_allowed self u now).2 v = history self v)).
Proof.
  intros Hlimit Hsorted. split.
  - destruct (window_inv_run limit window calls
                (new_RateLimiter limit window, [])
                (foldr Z.min 0 (calls.*2))) as (T & _ & _ & _ & _ & Hcount).
    + by apply window_inv_init.
    + clear. induction calls as [|c calls IH]; [done|].
      rewrite fmap_cons. simpl. constructor; [lia|].
      eapply Forall_impl; [exact IH|]. simpl. intros d Hd. lia.
    + done.
    + exact Hcount.
  - intros self u now kept.
    assert (kept = filter (λ x, now - timedelta_seconds (time_window self) < x)
                          (history self u)) as ->
      by (apply list_filter_iff; intros; lia).
    split; [apply is_allowed_true_iff|].
    split; [apply is_allowed_history|].
    intros v Hne. by apply is_allowed_other.
Qed.

(** Six calls of one user at the same instant under the shipped limits:
    the admissions in the window ending there number at most five. *)
Lemma is_allowed_sliding_window_witness :
  len (in_window (timedelta_seconds 60) 0
         (admitted_at 7
            (run_admits (new_RateLimiter 5 60)
               [(7, 0); (7, 0); (7, 0); (7, 0); (7, 0); (7, 0)]).2))
  ≤ 5.
Proof.
  destruct (is_allowed_sliding_window 5 60
              [(7, 0); (7, 0); (7, 0); (7, 0); (7, 0); (7, 0)]) as [Hcount _].
  - lia.
  - rewrite !fmap_cons, fmap_nil. unfold snd. sorted_by_lia.
  - apply Hcount.
Defined.

(** C3. [get_wait_time] at the input where it parts from the
    specification. Five admissions at time 0 fill the shipped limit
    (5 per 60 s); a sixth call half a second later is rejected. The
    remaining time is then 59.5 s: the specification's formula gives 60,
    the code returns 59, and a retry 59 s after the rejection is
    rejected again, while the retry 60 s after it is admitted. *)
Theorem get_wait_time_rounds_down :
  let calls := [(7, 0); (7, 0); (7, 0); (7, 0); (7, 0); (7, 500000)] in
  let self := (run_admits rate_limiter calls).1 in
  (run_admits rate_limiter calls).2
    = [(7, 0); (7, 0); (7, 0); (7, 0); (7, 0)]
  ∧ (get_wait_time self 7 500000).1 = 59
  ∧ spec_WaitSeconds self 7 500000 = 60
  ∧ (is_allowed (get_wait_time self 7 500000).2 7
       (500000 + timedelta_seconds 59)).1 = false
  ∧ (is_allowed (get_wait_time self 7 500000).2 7
       (500000 + timedelta_seconds 60)).1 = true.
Proof. vm_compute. repeat split; reflexivity. Qed.

(** C6, as stated, fails for [get_wait_time]: one admission at time 0
    under the shipped limits, then [get_wait_time] 100 s later; the
    timestamp 0 is still stored although it is older than now - 60 s. *)
Lemma get_wait_time_keeps_stale :
  let self := (is_allowed rate_limiter 7 0).2 in
  let now := timedelta_seconds 100 in
  ¬ (∀ x, x ∈ history (get_wait_time self 7 now).2 7 →
          now - timedelta_seconds (time_window self) ≤ x ≤ now).
Proof.
  intros self now Hall.
  assert (0 ∈ history (get_wait_time self 7 now).2 7) as Hin
    by (vm_compute; apply list_elem_of_here).
  apply Hall in Hin. vm_compute in Hin. destruct Hin as [Hlo _].
  by apply Hlo.
Qed.

(** C6, amended. Immediately after [is_allowed] at [now], every
    timestamp stored for the calling user lies in (now - time_window,
    now], provided the window is positive and none of the stored
    timestamps was in the future; [get_wait_time] does not prune: it
    leaves every stored list as it found it. *)
Theorem is_allowed_prunes_eagerly (self : RateLimiter) (u now : Z) :
  0 < time_window self →
  (∀ x, x ∈ history self u → x ≤ now) →
  (∀ x, x ∈ history (is_allowed self u now).2 u →
        now - timedelta_seconds (time_window self) < x ≤ now)
  ∧ (∀ v w now', history (get_wait_time self v now').2 w = history self w).
Proof.
  intros Hwin Hpast. split.
  - intros x. rewrite is_allowed_history.
    destruct (is_allowed self u now).1.
    + rewrite elem_of_app, list_elem_of_filter, list_elem_of_singleton.
      intros [[Hx Hin]| ->].
      * apply Hpast in Hin. lia.
      * unfold timedelta_seconds. lia.
    + rewrite list_elem_of_filter. intros [Hx Hin]. apply Hpast in Hin. lia.
  - intros v w now'. apply get_wait_time_history.
Qed.

(** An admission at 0 and a call 90 s later: what is stored afterwards
    is inside the last 60 s. *)
Lemma is_allowed_prunes_eagerly_witness :
  Forall (λ x, timedelta_seconds 90
               - timedelta_seconds
                   (time_window (is_allowed rate_limiter 7 0).2)
               < x ≤ timedelta_seconds 90)
         (history (is_allowed (is_allowed rate_limiter 7 0).2 7
                              (timedelta_seconds 90)).2 7).
Proof.
  destruct (is_allowed_prunes_eagerly (is_allowed rate_limiter 7 0).2 7
              (timedelta_seconds 90)) as [Hin _].
  - vm_compute. reflexivity.
  - intros x Hx. vm_compute in Hx.
    apply list_elem_of_singleton in Hx. subst x. vm_compute. discriminate.
  - apply Forall_forall. exact Hin.
Defined.

(** C8, as stated, fails: both constructors return on non-positive
    limits. *)
Lemma init_accepts_nonpositive :
  RateLimiter_init 0 (-60) ≠ Raised ∧ ContextManager_init ≠ Raised.
Proof. split; discriminate. Qed.

(** C8, amended. Construction never fails and never adjusts a value:
    [RateLimiter(max_messages, time_window)] returns, for all integers,
    a limiter that holds exactly the two values given and no history;
    [ContextManager()] takes no configuration and returns an empty
    store. *)
Theorem init_never_fails (limit window : Z) :
  (∃ self, RateLimiter_init limit window = Returned self
           ∧ max_messages self = limit
           ∧ time_window self = window
           ∧ user_messages self = ∅)
  ∧ (∃ self, ContextManager_init = Returned self
             ∧ user_contexts self = ∅
             ∧ user_last_activity self = ∅).
Proof.
  split.
  - by exists (new_RateLimiter limit window).
  - by exists new_ContextManager.
Qed.

(* ===================================================================== *)
(** * Properties of the context store *)
(* ===================================================================== *)

Section ContextManagerFacts.

Variable cfg : Config.

Implicit Types (self : ContextManager) (u v now : Z) (txt : pystr)
  (messages : list ContextMessage).

Lemma add_message_too_short self u txt mid now_msg now :
  too_short txt = true → add_message cfg self u txt mid now_msg now = self.
Proof. unfold add_message, too_short. by intros ->. Qed.

Lemma slice_from_keep_last {A} (n : Z) (l : list A) :
  0 < n → n < len l → slice_from (- n) l = keep_last n l.
Proof.
  intros Hn Hlen. unfold slice_from, keep_last, len in *.
  destruct (- n <? 0) eqn:Hneg; [|lia].
  f_equal. lia.
Qed.

Lemma keep_last_short {A} (n : Z) (l : list A) :
  len l ≤ n → keep_last n l = l.
Proof.
  intros Hlen. unfold keep_last, len in *.
  replace (length l - Z.to_nat n)%nat with O by lia. done.
Qed.

Lemma keep_last_length {A} (n : Z) (l : list A) :
  0 ≤ n → len (keep_last n l) ≤ n.
Proof. intros Hn. unfold keep_last, len. rewrite length_drop. lia. Qed.

Lemma keep_last_app {A} (n : Z) (l k : list A) :
  keep_last n (keep_last n l ++ k) = keep_last n (l ++ k).
Proof.
  unfold keep_last. rewrite !length_app, length_drop.
  destruct (decide (length l ≤ Z.to_nat n)%nat) as [Hle|Hgt].
  - replace (length l - Z.to_nat n)%nat with O by lia. simpl.
    by replace (length l - 0)%nat with (length l) by lia.
  - replace (length l + length k - Z.to_nat n)%nat
      with (length l - Z.to_nat n + length k)%nat by lia.
    rewrite <- (drop_drop (l ++ k) (length k) (length l - Z.to_nat n)).
    rewrite (drop_app_le l k (length l - Z.to_nat n)) by lia.
    f_equal. lia.
Qed.

(** What a stored message does to the maps. *)
Lemma add_message_stored self u txt mid now_msg now :
  too_short txt = false →
  0 < CONTEXT_MAX_MESSAGES cfg →
  let self' := add_message cfg self u txt mid now_msg now in
  let message :=
    {| text := strip txt; timestamp := now_msg; message_id := mid |} in
  user_contexts self'
  = <[u := keep_last (CONTEXT_MAX_MESSAGES cfg) (buffer self u ++ [message])]>
      (user_contexts self)
  ∧ user_last_activity self' = <[u := now]> (user_last_activity self).
Proof.
  intros Hshort Hmax. unfold add_message, too_short in *. rewrite Hshort.
  simpl. split; [|done].
  set (message := {| text := strip txt; timestamp := now_msg;
                     message_id := mid |}).
  assert (default [] (match user_contexts self !! u with
                      | Some _ => user_contexts self
                      | None => <[u:=[]]> (user_contexts self)
                      end !! u) = buffer self u) as ->.
  { unfold buffer. destruct (user_contexts self !! u) eqn:Hu.
    - by rewrite Hu.
    - by rewrite lookup_insert_eq. }
  assert (∀ b, <[u := b]> (match user_contexts self !! u with
                          | Some _ => user_contexts self
                          | None => <[u:=[]]> (user_contexts self)
                          end) = <[u := b]> (user_contexts self)) as Hins.
  { intros b. destruct (user_contexts self !! u); [done|].
    by rewrite insert_insert_eq. }
  destruct (CONTEXT_MAX_MESSAGES cfg <? len (buffer self u ++ [message]))
    eqn:Hcmp.
  - rewrite insert_insert_eq, Hins.
    by rewrite slice_from_keep_last by lia.
  - rewrite Hins. by rewrite keep_last_short by lia.
Qed.

Lemma too_short_iff txt : too_short txt = true ↔ len (strip txt) < 5.
Proof.
  unfold too_short. rewrite orb_true_iff, Z.ltb_lt, bool_decide_eq_true.
  split; [|by right].
  intros [->|Hlen]; [|done]. by vm_compute.
Qed.

Lemma too_short_false_iff txt : too_short txt = false ↔ 5 ≤ len (strip txt).
Proof.
  pose proof (too_short_iff txt) as Hiff.
  destruct (too_short txt); split; intros Hx; try done.
  - assert (len (strip txt) < 5) by by apply Hiff. lia.
  - destruct (decide (len (strip txt) < 5)) as [Hlt|Hge]; [|lia].
    apply Hiff in Hlt. done.
Qed.

Lemma buffer_add_message_eq self u txt mid now_msg now :
  too_short txt = false →
  0 < CONTEXT_MAX_MESSAGES cfg →
  buffer (add_message cfg self u txt mid now_msg now) u
  = keep_last (CONTEXT_MAX_MESSAGES cfg)
      (buffer self u
       ++ [{| text := strip txt; timestamp := now_msg; message_id := mid |}]).
Proof.
  intros Hshort Hmax.
  destruct (add_message_stored self u txt mid now_msg now Hshort Hmax)
    as [Hctx _].
  unfold buffer at 1. by rewrite Hctx, lookup_insert_eq.
Qed.

Lemma add_message_other self u v txt mid now_msg now :
  u ≠ v →
  user_contexts (add_message cfg self u txt mid now_msg now) !! v
  = user_contexts self !! v
  ∧ user_last_activity (add_message cfg self u txt mid now_msg now) !! v
    = user_last_activity self !! v.
Proof.
  intros Hne. unfold add_message.
  destruct (bool_decide (txt = []) || (len (strip txt) <? 5)); [done|].
  simpl. split; [|by rewrite lookup_insert_ne].
  destruct (CONTEXT_MAX_MESSAGES cfg <? _);
    rewrite ?lookup_insert_ne by done;
    destruct (user_contexts self !! u); by rewrite ?lookup_insert_ne.
Qed.

Lemma buffer_add_message_ne self u v txt mid now_msg now :
  u ≠ v →
  buffer (add_message cfg self u txt mid now_msg now) v = buffer self v.
Proof.
  intros Hne. unfold buffer.
  by destruct (add_message_other self u v txt mid now_msg now Hne) as [-> _].
Qed.

Lemma last_keep_last_snoc {A} (n : Z) (l : list A) (x : A) :
  0 < n → last (keep_last n (l ++ [x])) = Some x.
Proof.
  intros Hn. unfold keep_last. rewrite length_app. simpl.
  rewrite drop_app_le by lia. by rewrite last_snoc.
Qed.

Lemma run_appends_buffer u (calls : list append_call) :
  0 < CONTEXT_MAX_MESSAGES cfg →
  ∀ self,
    len (buffer self u) ≤ CONTEXT_MAX_MESSAGES cfg →
    buffer (run_appends cfg self calls) u
    = keep_last (CONTEXT_MAX_MESSAGES cfg)
                (buffer self u ++ entries_of u calls).
Proof.
  intros Hmax. unfold run_appends.
  induction calls as [|c calls IH]; intros self Hlen; simpl.
  - unfold entries_of. simpl. rewrite app_nil_r.
    by rewrite keep_last_short.
  - unfold entries_of. simpl. fold (entries_of u calls).
    unfold append_step at 2.
    destruct (decide (ac_user c = u)) as [Hu|Hu].
    + rewrite bool_decide_eq_true_2 by done. simpl.
      destruct (too_short (ac_text c)) eqn:Hshort; simpl.
      * rewrite add_message_too_short by done. by apply IH.
      * rewrite IH.
        -- rewrite Hu, buffer_add_message_eq by done.
           rewrite keep_last_app. by rewrite <- (assoc_L (++)).
        -- rewrite Hu, buffer_add_message_eq by done.
           apply keep_last_length. lia.
    + rewrite bool_decide_eq_false_2 by done. simpl.
      rewrite IH; by rewrite buffer_add_message_ne.
Qed.

(** The expiry test, read on the stored activity. *)
Lemma is_context_expired_iff self u last now :
  user_last_activity self !! u = Some last →
  _is_context_expired cfg self u now = true
  ↔ timedelta_minutes (CONTEXT_TIMEOUT_MINUTES cfg) < now - last.
Proof.
  intros Hlast. unfold _is_context_expired. rewrite Hlast.
  by rewrite bool_decide_eq_true.
Qed.

Lemma buffer_clear_context self u :
  user_contexts (clear_context self u) !! u = None
  ∧ user_last_activity (clear_context self u) !! u = None.
Proof. unfold clear_context; simpl. by rewrite !lookup_delete_eq. Qed.

(** The reads on a buffer that is stored and not empty. *)
Lemma has_context_nonempty self u now :
  buffer self u ≠ [] →
  has_context cfg self u now
  = if _is_context_expired cfg self u now
    then (false, clear_context self u) else (true, self).
Proof.
  unfold buffer, has_context.
  destruct (user_contexts self !! u) as [[|m ms]|]; simpl; done.
Qed.

Lemma get_context_text_nonempty self u now :
  buffer self u ≠ [] →
  get_context_text cfg self u now
  = if _is_context_expired cfg self u now
    then (None, clear_context self u)
    else
      if CONTEXT_MAX_TOKENS cfg <? len (full_context_text (buffer self u)) / 4
      then (Some (_truncate_context self u (CONTEXT_MAX_TOKENS cfg)), self)
      else (Some (full_context_text (buffer self u)), self).
Proof.
  unfold buffer, get_context_text.
  destruct (user_contexts self !! u) as [[|m ms]|]; simpl; done.
Qed.

(** The reads on a user without entries. *)
Lemma reads_empty self u now :
  buffer self u = [] →
  has_context cfg self u now = (false, self)
  ∧ get_context_text cfg self u now = (None, self).
Proof.
  unfold buffer, has_context, get_context_text.
  destruct (user_contexts self !! u) as [[|m ms]|]; simpl; done.
Qed.

(** Clearing a list of users. *)
Lemma foldl_clear_context (l : list Z) :
  ∀ self u,
    user_contexts (foldl clear_context self l) !! u
    = (if decide (u ∈ l) then None else user_contexts self !! u)
    ∧ user_last_activity (foldl clear_context self l) !! u
      = (if decide (u ∈ l) then None else user_last_activity self !! u).
Proof.
  induction l as [|x l IH]; intros self u; cbn [foldl].
  - destruct (decide (u ∈ [])) as [Hin|_]; [|done].
    by apply elem_of_nil in Hin.
  - destruct (IH (clear_context self x) u) as [-> ->].
    unfold clear_context; simpl.
    destruct (decide (u ∈ l)) as [Hin|Hnin];
      destruct (decide (u ∈ x :: l)) as [Hin'|Hnin']; try done.
    + exfalso. apply Hnin'. by apply list_elem_of_further.
    + apply elem_of_cons in Hin' as [->|Hin']; [|done].
      by rewrite !lookup_delete_eq.
    + rewrite !lookup_delete_ne; [done| |].
      all: intros ->; apply Hnin'; apply list_elem_of_here.
Qed.

Lemma elem_of_expired_users self clock u :
  u ∈ expired_users cfg self clock
  ↔ is_Some (user_contexts self !! u)
    ∧ _is_context_expired cfg self u (clock u) = true.
Proof.
  unfold expired_users. rewrite list_elem_of_filter.
  rewrite list_elem_of_fmap. split.
  - intros [Hexp ([k msgs] & -> & Hin)]. simpl in *.
    apply elem_of_map_to_list in Hin. by rewrite Hin.
  - intros [[msgs Hin] Hexp]. split; [done|].
    exists (u, msgs). split; [done|]. by apply elem_of_map_to_list.
Qed.

Lemma NoDup_expired_users self clock : NoDup (expired_users cfg self clock).
Proof. unfold expired_users. apply NoDup_filter, NoDup_fst_map_to_list. Qed.

End ContextManagerFacts.

(** ** Rendering under a budget *)

Section TruncationFacts.

Implicit Types (messages : list ContextMessage) (msg : ContextMessage).

Lemma index_here {A} `{EqDecision A} (x : A) (l : list A) :
  index x (x :: l) = O.
Proof. simpl. by rewrite decide_True. Qed.

Lemma index_further {A} `{EqDecision A} (x y : A) (l : list A) :
  y ≠ x → index x (y :: l) = S (index x l).
Proof. intros Hne. simpl. by rewrite decide_False. Qed.

(** On a list without repetition, [l.index(x)] is the position of [x],
    and labelling by it is labelling by [enumerate]. *)
Lemma map_index_enumerate messages :
  NoDup messages →
  ∀ base,
    map (λ msg, block (base + Z.of_nat (index msg messages) + 1) msg) messages
    = map (λ p : Z * ContextMessage, block p.1 p.2)
          (enumerate (base + 1) messages).
Proof.
  induction 1 as [|x l Hx Hnd IH]; intros base; [done|].
  cbn [map enumerate]. rewrite index_here. f_equal.
  - simpl. f_equal. lia.
  - rewrite <- IH. apply map_ext_in. intros msg Hin.
    apply list_elem_of_In in Hin.
    rewrite index_further by (intros ->; done).
    f_equal. lia.
Qed.

Lemma slice_from_last {A} (l : list A) (i : nat) :
  (1 ≤ i ≤ length l)%nat →
  slice_from (- Z.of_nat i) l = drop (length l - i) l.
Proof.
  intros Hi. unfold slice_from, len.
  destruct (- Z.of_nat i <? 0) eqn:Hneg; [|lia].
  f_equal. lia.
Qed.

Lemma suffix_parts_render messages (i : nat) :
  NoDup messages →
  (1 ≤ i ≤ length messages)%nat →
  join separator (suffix_parts messages i) = render_suffix messages i.
Proof.
  intros Hnd Hi. unfold suffix_parts, render_suffix.
  rewrite slice_from_last by done. f_equal.
  apply (map_index_enumerate (drop (length messages - i) messages)).
  apply (sublist_NoDup _ messages); [done|apply sublist_drop].
Qed.

Lemma render_suffix_all messages :
  render_suffix messages (length messages) = full_context_text messages.
Proof.
  unfold render_suffix, full_context_text, len.
  replace (length messages - length messages)%nat with O by lia.
  simpl. do 3 f_equal. lia.
Qed.

(** The loop returns the first rendering that fits, trying the longest
    suffix first. *)
Lemma truncate_loop_Some messages (max_chars : Z) (n : nat) (out : pystr) :
  truncate_loop messages max_chars n = Some out →
  ∃ i : nat,
    (1 ≤ i ≤ n)%nat
    ∧ out = join separator (suffix_parts messages i)
    ∧ len out ≤ max_chars
    ∧ ∀ j : nat, (i < j ≤ n)%nat →
        max_chars < len (join separator (suffix_parts messages j)).
Proof.
  induction n as [|n IH]; [done|].
  cbn [truncate_loop].
  destruct (len (join separator (suffix_parts messages (S n))) <=? max_chars)
    eqn:Hfit.
  - intros [= <-]. exists (S n). split; [lia|]. split; [done|].
    split; [lia|]. intros j Hj. lia.
  - intros Hloop. destruct (IH Hloop) as (i & Hi & Hout & Hlen & Hmax).
    exists i. split; [lia|]. split; [done|]. split; [done|].
    intros j Hj. destruct (decide (j = S n)) as [->|Hne]; [lia|].
    apply Hmax. lia.
Qed.

Lemma truncate_loop_None messages (max_chars : Z) (n : nat) :
  truncate_loop messages max_chars n = None →
  ∀ j : nat, (1 ≤ j ≤ n)%nat →
    max_chars < len (join separator (suffix_parts messages j)).
Proof.
  induction n as [|n IH]; [intros _ j Hj; lia|].
  cbn [truncate_loop].
  destruct (len (join separator (suffix_parts messages (S n))) <=? max_chars)
    eqn:Hfit; [done|].
  intros Hloop j Hj. destruct (decide (j = S n)) as [->|Hne]; [lia|].
  apply IH; [done|lia].
Qed.

Lemma slice_to_length {A} (k : Z) (l : list A) :
  0 ≤ k → slice_to k l = take (Z.to_nat k) l ∧ len (slice_to k l) ≤ k.
Proof.
  intros Hk. unfold slice_to, len.
  destruct (k <? 0) eqn:Hneg; [lia|].
  split; [done|]. rewrite length_take. lia.
Qed.

End TruncationFacts.

(** ** The claims about the context store *)

(** C4. [add_message] changes nothing when the stripped text has fewer
    than 5 characters. Otherwise it puts the new entry at the tail of
    the user's buffer, keeps the last [CONTEXT_MAX_MESSAGES] entries,
    sets the user's last activity to [now] and touches no other user.
    After any sequence of calls on a fresh store, every buffer holds at
    most [CONTEXT_MAX_MESSAGES] entries, namely the most recent ones
    that were stored for the user, in their order. *)
Theorem add_message_bounded (cfg : Config) (self : ContextManager)
    (u : Z) (txt : pystr) (mid : option Z) (now_msg now : Z)
    (calls : list append_call) :
  0 < CONTEXT_MAX_MESSAGES cfg →
  let self' := add_message cfg self u txt mid now_msg now in
  let message :=
    {| text := strip txt; timestamp := now_msg; message_id := mid |} in
  (len (strip txt) < 5 → self' = self)
  ∧ (5 ≤ len (strip txt) →
       buffer self' u
       = keep_last (CONTEXT_MAX_MESSAGES cfg) (buffer self u ++ [message])
       ∧ last (buffer self' u) = Some message
       ∧ user_last_activity self' !! u = Some now
       ∧ (∀ v, u ≠ v →
            user_contexts self' !! v = user_contexts self !! v
            ∧ user_last_activity self' !! v = user_last_activity self !! v))
  ∧ (∀ w,
       len (buffer (run_appends cfg new_ContextManager calls) w)
       ≤ CONTEXT_MAX_MESSAGES cfg
       ∧ buffer (run_appends cfg new_ContextManager calls) w
         = keep_last (CONTEXT_MAX_MESSAGES cfg) (entries_of w calls)).
Proof.
  intros Hmax self' message. split; [|split].
  - intros Hshort. apply add_message_too_short. by apply too_short_iff.
  - intros Hlong. apply too_short_false_iff in Hlong.
    assert (buffer self' u
            = keep_last (CONTEXT_MAX_MESSAGES cfg) (buffer self u ++ [message]))
      as Hbuf by by apply buffer_add_message_eq.
    split; [done|]. split; [|split].
    + rewrite Hbuf. by apply last_keep_last_snoc.
    + destruct (add_message_stored cfg self u txt mid now_msg now Hlong Hmax)
        as [_ Hact].
      subst self'. by rewrite Hact, lookup_insert_eq.
    + intros v Hne. by apply add_message_other.
  - intros w.
    assert (buffer (run_appends cfg new_ContextManager calls) w
            = keep_last (CONTEXT_MAX_MESSAGES cfg) (entries_of w calls))
      as Hrun.
    { rewrite run_appends_buffer; [done|done|].
      unfold buffer, new_ContextManager; simpl. rewrite lookup_empty.
      simpl. unfold len; simpl. lia. }
    split; [|done]. rewrite Hrun. apply keep_last_length. lia.
Qed.

(** Twelve stored messages under the shipped limit of ten. *)
Lemma add_message_bounded_witness :
  len (buffer (run_appends config new_ContextManager
                 (map hello_at [1; 2; 3; 4; 5; 6; 7; 8; 9; 10; 11; 12])) 1)
  ≤ 10
  ∧ buffer (run_appends config new_ContextManager
              (map hello_at [1; 2; 3; 4; 5; 6; 7; 8; 9; 10; 11; 12])) 1
    = keep_last 10
        (entries_of 1 (map hello_at [1; 2; 3; 4; 5; 6; 7; 8; 9; 10; 11; 12])).
Proof.
  destruct (add_message_bounded config new_ContextManager 1 hello None 0 0
              (map hello_at [1; 2; 3; 4; 5; 6; 7; 8; 9; 10; 11; 12]))
    as (_ & _ & Hrun).
  - vm_compute. reflexivity.
  - apply (Hrun 1).
Defined.

(** C5. Lazy expiry. The test is [now - last_activity > timeout],
    strictly. Once it holds, [has_context] returns [False] and
    [get_context_text] returns [None] without any sweep, and each of
    them, finding a non-empty buffer, removes the user's buffer and
    activity record. A non-empty buffer that is exactly [timeout] old
    is still served. *)
Theorem lazy_expiry (cfg : Config) (self : ContextManager) (u last now : Z) :
  user_last_activity self !! u = Some last →
  let timeout := timedelta_minutes (CONTEXT_TIMEOUT_MINUTES cfg) in
  (_is_context_expired cfg self u now = true ↔ timeout < now - last)
  ∧ (timeout < now - last →
       (has_context cfg self u now).1 = false
       ∧ (get_context_text cfg self u now).1 = None
       ∧ (buffer self u ≠ [] →
            (has_context cfg self u now).2 = clear_context self u
            ∧ (get_context_text cfg self u now).2 = clear_context self u
            ∧ user_contexts (clear_context self u) !! u = None
            ∧ user_last_activity (clear_context self u) !! u = None))
  ∧ (now - last = timeout →
       buffer self u ≠ [] →
       has_context cfg self u now = (true, self)
       ∧ is_Some (get_context_text cfg self u now).1
       ∧ (get_context_text cfg self u now).2 = self).
Proof.
  intros Hlast timeout.
  pose proof (is_context_expired_iff cfg self u last now Hlast) as Hexp.
  split; [done|]. split.
  - intros Hold. apply Hexp in Hold.
    destruct (decide (buffer self u = [])) as [Hempty|Hne].
    + destruct (reads_empty cfg self u now Hempty) as [-> ->]. done.
    + rewrite has_context_nonempty, get_context_text_nonempty by done.
      rewrite Hold. simpl. repeat split; try done;
        apply buffer_clear_context.
  - intros Heq Hne.
    assert (_is_context_expired cfg self u now = false) as Hfresh.
    { apply not_true_is_false. intros E. apply Hexp in E.
      subst timeout. lia. }
    rewrite has_context_nonempty, get_context_text_nonempty by done.
    rewrite Hfresh. split; [done|].
    destruct (CONTEXT_MAX_TOKENS cfg <? _); simpl; eauto.
Qed.

(** One message stored at time 0, read 30 minutes and one microsecond
    later under the shipped timeout of 30 minutes. *)
Lemma lazy_expiry_witness :
  (has_context config (run_appends config new_ContextManager [hello_at 0]) 1
     (timedelta_minutes 30 + 1)).1 = false
  ∧ (get_context_text config
       (run_appends config new_ContextManager [hello_at 0]) 1
       (timedelta_minutes 30 + 1)).1 = None.
Proof.
  destruct (lazy_expiry config
              (run_appends config new_ContextManager [hello_at 0]) 1 0
              (timedelta_minutes 30 + 1)) as (_ & Hold & _).
  - vm_compute. reflexivity.
  - destruct Hold as (Hhas & Hget & _).
    + vm_compute. reflexivity.
    + by split.
Defined.

(** C7, as stated, fails on the return value: with one expired buffer
    in the store the sweep removes it and returns [None], not the
    count 1. *)
Lemma cleanup_expired_contexts_returns_none :
  let self := run_appends config new_ContextManager [hello_at 0] in
  let clock := λ _ : Z, timedelta_minutes 31 in
  len (expired_users config self clock) = 1
  ∧ user_contexts (cleanup_expired_contexts config self clock).2 !! 1 = None
  ∧ (cleanup_expired_contexts config self clock).1 ≠ PyInt 1.
Proof. vm_compute. repeat split; discriminate. Qed.

(** C7, amended. [cleanup_expired_contexts] returns [None]. It looks at
    every user that has a buffer, and removes the buffer and the
    activity record of exactly those whose last activity is more than
    the timeout before the clock reading taken for them (or is
    missing); every other buffer and record is left as it was. The list
    of removed users, whose length is what the method logs, names each
    of them once. *)
Theorem cleanup_expired_contexts_sweep (cfg : Config) (self : ContextManager)
    (clock : Z → Z) :
  let timeout := timedelta_minutes (CONTEXT_TIMEOUT_MINUTES cfg) in
  let stale u :=
    match user_last_activity self !! u with
    | Some last => bool_decide (timeout < clock u - last)
    | None => true
    end in
  let self' := (cleanup_expired_contexts cfg self clock).2 in
  (cleanup_expired_contexts cfg self clock).1 = PyNone
  ∧ (∀ u, user_contexts self' !! u
          = if stale u then None else user_contexts self !! u)
  ∧ (∀ u, user_last_activity self' !! u
          = match user_contexts self !! u with
            | Some _ => if stale u then None else user_last_activity self !! u
            | None => user_last_activity self !! u
            end)
  ∧ NoDup (expired_users cfg self clock)
  ∧ (∀ u, u ∈ expired_users cfg self clock
          ↔ is_Some (user_contexts self !! u) ∧ stale u = true).
Proof.
  intros timeout stale self'.
  assert (∀ u, _is_context_expired cfg self u (clock u) = stale u) as Hstale
    by done.
  split; [done|].
  assert (∀ u, u ∈ expired_users cfg self clock
               ↔ is_Some (user_contexts self !! u) ∧ stale u = true) as Hin.
  { intros u. rewrite <- Hstale. apply elem_of_expired_users. }
  split; [|split; [|split]].
  - intros u. subst self'. unfold cleanup_expired_contexts; simpl.
    destruct (foldl_clear_context (expired_users cfg self clock) self u)
      as [-> _].
    destruct (decide (u ∈ expired_users cfg self clock)) as [Hu|Hu].
    + apply Hin in Hu as [_ ->]. done.
    + destruct (stale u) eqn:Hs; [|done].
      destruct (user_contexts self !! u) eqn:Hctx; [|done].
      exfalso. apply Hu, Hin. rewrite Hctx. eauto.
  - intros u. subst self'. unfold cleanup_expired_contexts; simpl.
    destruct (foldl_clear_context (expired_users cfg self clock) self u)
      as [_ ->].
    destruct (decide (u ∈ expired_users cfg self clock)) as [Hu|Hu].
    + apply Hin in Hu as [[msgs ->] ->]. done.
    + destruct (user_contexts self !! u) eqn:Hctx; [|done].
      destruct (stale u) eqn:Hs; [|done].
      exfalso. apply Hu, Hin. rewrite Hctx. eauto.
  - apply NoDup_expired_users.
  - done.
Qed.

(** C9. [get_context_text] never alters an entry: every buffer found in
    the store after the call was there before, unchanged; the store is
    the same object whenever the context is not expired, and otherwise
    it differs only by the lazy removal of the expired user. A second
    call at the same instant returns the same output and leaves the
    store as the first did, and on a context that is not expired the
    second call may come at any later instant at which it is still not
    expired. *)
Theorem get_context_text_non_mutating (cfg : Config) (self : ContextManager)
    (u now : Z) :
  let r1 := get_context_text cfg self u now in
  let r2 := get_context_text cfg r1.2 u now in
  r2 = r1
  ∧ (∀ v msgs, user_contexts r1.2 !! v = Some msgs →
               user_contexts self !! v = Some msgs)
  ∧ (r1.2 = self
     ∨ (buffer self u ≠ [] ∧ _is_context_expired cfg self u now = true
        ∧ r1 = (None, clear_context self u)))
  ∧ (_is_context_expired cfg self u now = false → r1.2 = self)
  ∧ (∀ now', _is_context_expired cfg self u now = false →
             _is_context_expired cfg self u now' = false →
             get_context_text cfg r1.2 u now' = r1).
Proof.
  intros r1 r2. subst r2 r1.
  destruct (decide (buffer self u = [])) as [Hempty|Hne].
  - destruct (reads_empty cfg self u now Hempty) as [_ Hget].
    rewrite Hget. simpl. rewrite Hget.
    split; [done|]. split; [done|]. split; [by left|]. split; [done|].
    intros now' _ _. by destruct (reads_empty cfg self u now' Hempty).
  - rewrite (get_context_text_nonempty cfg self u now Hne).
    destruct (_is_context_expired cfg self u now) eqn:Hexp.
    + simpl. split; [|split; [|split; [|split]]].
      * unfold get_context_text.
        by destruct (buffer_clear_context self u) as [-> _].
      * intros v msgs. unfold clear_context; simpl.
        intros Hv. by apply lookup_delete_Some in Hv as [_ Hv].
      * right. done.
      * done.
      * done.
    + assert (∀ now', _is_context_expired cfg self u now' = false →
                get_context_text cfg self u now'
                = (if CONTEXT_MAX_TOKENS cfg
                      <? len (full_context_text (buffer self u)) / 4
                   then (Some (_truncate_context self u
                                 (CONTEXT_MAX_TOKENS cfg)), self)
                   else (Some (full_context_text (buffer self u)), self)))
        as Hagain.
      { intros now' Hexp'.
        rewrite (get_context_text_nonempty cfg self u now' Hne).
        by rewrite Hexp'. }
      pose proof (Hagain now Hexp) as Hnow.
      destruct (CONTEXT_MAX_TOKENS cfg <? _) eqn:Hlong; simpl;
        (split; [done|]); (split; [done|]); (split; [by left|]);
        (split; [done|]); intros now' _ Hexp'; by apply Hagain.
Qed.

(** C10. A valid [add_message] on a buffer that has expired but has not
    been looked at since does not start afresh: the new entry goes
    behind the stale ones (all of them while the cap allows), the last
    activity becomes [now], and every read made before the refreshed
    buffer expires serves the stale entries again: the user has
    context, the count includes them and the rendering is built from
    them. *)
Theorem add_message_revives_expired (cfg : Config) (self : ContextManager)
    (u : Z) (old : list ContextMessage) (last : Z) (txt : pystr)
    (mid : option Z) (now_msg now now' : Z) :
  0 < CONTEXT_MAX_MESSAGES cfg →
  user_contexts self !! u = Some old →
  user_last_activity self !! u = Some last →
  timedelta_minutes (CONTEXT_TIMEOUT_MINUTES cfg) < now - last →
  5 ≤ len (strip txt) →
  now' - now ≤ timedelta_minutes (CONTEXT_TIMEOUT_MINUTES cfg) →
  let self' := add_message cfg self u txt mid now_msg now in
  let message :=
    {| text := strip txt; timestamp := now_msg; message_id := mid |} in
  let revived := keep_last (CONTEXT_MAX_MESSAGES cfg) (old ++ [message]) in
  _is_context_expired cfg self u now = true
  ∧ user_contexts self' !! u = Some revived
  ∧ (len old < CONTEXT_MAX_MESSAGES cfg → revived = old ++ [message])
  ∧ user_last_activity self' !! u = Some now
  ∧ has_context cfg self' u now' = (true, self')
  ∧ get_message_count cfg self' u now' = (len revived, self')
  ∧ get_context_text cfg self' u now'
    = (Some (if CONTEXT_MAX_TOKENS cfg <? len (full_context_text revived) / 4
             then _truncate_context self' u (CONTEXT_MAX_TOKENS cfg)
             else full_context_text revived),
       self').
Proof.
  intros Hmax Hold Hlast Hexpired Hlong Hsoon self' message revived.
  apply too_short_false_iff in Hlong.
  destruct (add_message_stored cfg self u txt mid now_msg now Hlong Hmax)
    as [Hctx Hact].
  assert (buffer self u = old) as Hbuf by (unfold buffer; by rewrite Hold).
  rewrite Hbuf in Hctx. fold message revived self' in Hctx, Hact.
  assert (user_contexts self' !! u = Some revived) as Hrev
    by by rewrite Hctx, lookup_insert_eq.
  assert (user_last_activity self' !! u = Some now) as Hnow
    by by rewrite Hact, lookup_insert_eq.
  assert (buffer self' u = revived) as Hbuf'
    by (unfold buffer; by rewrite Hrev).
  assert (revived ≠ []) as Hne.
  { intros Hnil.
    pose proof (last_keep_last_snoc (CONTEXT_MAX_MESSAGES cfg) old message Hmax)
      as Hl.
    fold revived in Hl. by rewrite Hnil in Hl. }
  assert (_is_context_expired cfg self' u now' = false) as Hfresh.
  { apply not_true_is_false. intros E.
    apply (is_context_expired_iff cfg self' u now now' Hnow) in E. lia. }
  split; [by apply (is_context_expired_iff cfg self u last now Hlast)|].
  split; [done|].
  split; [intros Hroom; apply keep_last_short;
          unfold len in *; rewrite length_app; simpl; lia|].
  split; [done|].
  assert (has_context cfg self' u now' = (true, self')) as Hhas.
  { rewrite has_context_nonempty by by rewrite Hbuf'. by rewrite Hfresh. }
  split; [done|]. split.
  - unfold get_message_count. rewrite Hhas. by rewrite Hrev.
  - rewrite get_context_text_nonempty by by rewrite Hbuf'.
    rewrite Hfresh, Hbuf'. by destruct (CONTEXT_MAX_TOKENS cfg <? _).
Qed.

(** A message of time 0, a second one 31 minutes later with no read in
    between, under the shipped limits: both are served. *)
Lemma add_message_revives_expired_witness :
  get_message_count config
    (add_message config (run_appends config new_ContextManager [hello_at 0])
       1 hello None (timedelta_minutes 31) (timedelta_minutes 31))
    1 (timedelta_minutes 31)
  = (2, add_message config (run_appends config new_ContextManager [hello_at 0])
          1 hello None (timedelta_minutes 31) (timedelta_minutes 31)).
Proof.
  destruct (add_message_revives_expired config
              (run_appends config new_ContextManager [hello_at 0]) 1
              [{| text := hello; timestamp := 0; message_id := None |}]
              0 hello None (timedelta_minutes 31) (timedelta_minutes 31)
              (timedelta_minutes 31))
    as (_ & _ & _ & _ & _ & Hcount & _).
  - vm_compute. reflexivity.
  - vm_compute. reflexivity.
  - vm_compute. reflexivity.
  - vm_compute. reflexivity.
  - vm_compute. discriminate.
  - vm_compute. discriminate.
  - exact Hcount.
Defined.

(** C2, as stated, fails at the edge of the budget: the store holds one
    message of 15977 characters, read at once; the rendering has 16001
    characters, more than the budget of 16000, and it is returned
    whole, since its estimate of 16001 // 4 = 4000 tokens is not above
    the 4000 allowed. *)
Lemma get_context_text_over_budget :
  buffer one_long_message 1 ≠ []
  ∧ _is_context_expired config one_long_message 1 0 = false
  ∧ max_rendered_size config = 16000
  ∧ len (full_context_text (buffer one_long_message 1)) = 16001
  ∧ (get_context_text config one_long_message 1 0).1
    = Some (full_context_text (buffer one_long_message 1))
  ∧ ¬ (∀ out, (get_context_text config one_long_message 1 0).1 = Some out →
              len out ≤ max_rendered_size config).
Proof.
  assert (len (full_context_text (buffer one_long_message 1)) = 16001)
    as Hlen by (vm_compute; reflexivity).
  assert ((get_context_text config one_long_message 1 0).1
          = Some (full_context_text (buffer one_long_message 1))) as Hget
    by (vm_compute; reflexivity).
  split; [by vm_compute|]. split; [by vm_compute|].
  split; [by vm_compute|]. split; [done|]. split; [done|].
  intros Hall. specialize (Hall _ Hget). rewrite Hlen in Hall.
  vm_compute in Hall. by apply Hall.
Qed.

(** C2, amended. Take a user whose buffer is not empty, not expired and
    holds pairwise different entries, and let the budget be
    4 * CONTEXT_MAX_TOKENS characters. [get_context_text] leaves the
    store alone. A full rendering of fewer than budget + 4 characters
    is returned whole. A longer one is cut: the output has at most
    budget characters and is the rendering of the longest trailing run
    of entries that fits the budget, each entry under the label it has
    in the full rendering; when not even the latest entry fits, the
    output is the first budget characters of the latest entry's text. *)
Theorem get_context_text_truncation (cfg : Config) (self : ContextManager)
    (u now : Z) :
  0 ≤ CONTEXT_MAX_TOKENS cfg →
  buffer self u ≠ [] →
  _is_context_expired cfg self u now = false →
  NoDup (buffer self u) →
  let messages := buffer self u in
  let budget := max_rendered_size cfg in
  let full := full_context_text messages in
  ∃ out,
    get_context_text cfg self u now = (Some out, self)
    ∧ (len full < budget + 4 → out = full)
    ∧ (budget + 4 ≤ len full →
         len out ≤ budget
         ∧ ((∃ i : nat,
               (1 ≤ i ≤ length messages)%nat
               ∧ out = render_suffix messages i
               ∧ ∀ j : nat, (i < j ≤ length messages)%nat →
                   budget < len (render_suffix messages j))
            ∨ ((∀ j : nat, (1 ≤ j ≤ length messages)%nat →
                  budget < len (render_suffix messages j))
               ∧ ∃ msg, last messages = Some msg
                        ∧ out = take (Z.to_nat budget) (text msg)))).
Proof.
  intros Htok Hne Hfresh Hnd messages budget full.
  rewrite (get_context_text_nonempty cfg self u now Hne), Hfresh.
  fold messages full.
  assert (budget = CONTEXT_MAX_TOKENS cfg * 4) as Hbudget by done.
  assert (0 ≤ len full) as Hpos by (unfold len; lia).
  destruct (CONTEXT_MAX_TOKENS cfg <? len full / 4) eqn:Hover.
  - (* the estimate is over the limit: [_truncate_context] *)
    apply Z.ltb_lt in Hover.
    assert (budget + 4 ≤ len full) as Hlong.
    { pose proof (Z.div_mod (len full) 4) as Hdiv.
      pose proof (Z.mod_pos_bound (len full) 4) as Hmod. lia. }
    exists (_truncate_context self u (CONTEXT_MAX_TOKENS cfg)).
    split; [done|]. split; [lia|]. intros _.
    unfold _truncate_context. fold (buffer self u). fold messages.
    rewrite <- Hbudget.
    destruct (truncate_loop messages budget (length messages)) as [out|]
      eqn:Hloop.
    + apply truncate_loop_Some in Hloop as (i & Hi & Hout & Hlen & Hmax).
      split; [done|]. left. exists i. split; [done|]. split.
      * rewrite Hout. by apply suffix_parts_render.
      * intros j Hj. rewrite <- suffix_parts_render by (done || lia).
        by apply Hmax.
    + pose proof (truncate_loop_None _ _ _ Hloop) as Hnone.
      destruct (last messages) as [msg|] eqn:Hlast.
      * destruct (slice_to_length budget (text msg)) as [Htake Hlen];
          [lia|].
        split; [done|]. right. split.
        -- intros j Hj. rewrite <- suffix_parts_render by done.
           by apply Hnone.
        -- exists msg. by rewrite Htake.
      * apply last_None in Hlast. done.
  - (* the estimate is within the limit: the full rendering *)
    apply Z.ltb_ge in Hover.
    assert (len full < budget + 4) as Hshort.
    { pose proof (Z.div_mod (len full) 4) as Hdiv.
      pose proof (Z.mod_pos_bound (len full) 4) as Hmod. lia. }
    exists full. split; [done|]. split; [done|]. intros Hlong. lia.
Qed.

(** Two messages of 9000 characters: the rendering returned is that of
    the later one alone and is within the 16000 characters. *)
Lemma get_context_text_truncation_witness :
  ∃ out,
    get_context_text config two_long_messages 1 1000000
    = (Some out, two_long_messages)
    ∧ len out ≤ 16000.
Proof.
  destruct (get_context_text_truncation config two_long_messages 1 1000000)
    as (out & Hget & _ & Hcut).
  - vm_compute. discriminate.
  - vm_compute. discriminate.
  - vm_compute. reflexivity.
  - assert (buffer two_long_messages 1
            = [ {| text := letters 9000; timestamp := 0; message_id := None |};
                {| text := letters 9000; timestamp := 1000000;
                   message_id := None |} ]) as ->
      by (vm_compute; reflexivity).
    apply NoDup_cons. split; [|apply NoDup_singleton].
    intros Hin. apply list_elem_of_singleton in Hin. discriminate Hin.
  - exists out. split; [exact Hget|].
    destruct Hcut as [Hlen _]; [vm_compute; discriminate|exact Hlen].
Defined.

(** The labels of [_truncate_context] come from [list.index], which
    finds the first equal entry: when the same message is stored twice
    with one clock reading, both copies are rendered under the label of
    the first, here "2" and "2" where the full rendering has "2" and
    "3". This is why the entries are taken pairwise different above. *)
Remark truncate_context_repeats_label :
  NoDup (buffer repeated_message 1) → False.
Proof.
  assert (buffer repeated_message 1
          = [ {| text := letters 9000; timestamp := 0; message_id := None |};
              {| text := letters 4000; timestamp := 1000000;
                 message_id := None |};
              {| text := letters 4000; timestamp := 1000000;
                 message_id := None |} ]) as ->
    by (vm_compute; reflexivity).
  intros Hnd. apply NoDup_cons in Hnd as [_ Hnd].
  apply NoDup_cons in Hnd as [Hnin _]. apply Hnin, list_elem_of_here.
Qed.

Remark truncate_context_repeated_output :
  let msg :=
    {| text := letters 4000; timestamp := 1000000; message_id := None |} in
  (get_context_text config repeated_message 1 1000000).1
  = Some (join separator [block 2 msg; block 2 msg])
  ∧ render_suffix (buffer repeated_message 1) 2
    = join separator [block 2 msg; block 3 msg].
Proof. split; vm_compute; reflexivity. Qed.

(* ===================================================================== *)
(** * Further properties of the rate limiter *)
(* ===================================================================== *)

Section RateLimiterMore.

Implicit Types (self : RateLimiter) (u v now t : Z) (h : list Z).


Lemma py_min_elem (x : Z) (r : list Z) : py_min x r ∈ x :: r.
Proof.
  unfold py_min. induction r as [|z r IH]; simpl.
  - apply list_elem_of_here.
  - destruct (Z.min_spec z (foldr Z.min x r)) as [[_ ->]|[_ ->]].
    + apply list_elem_of_further, list_elem_of_here.
    + apply elem_of_cons in IH as [->|IH].
      * apply list_elem_of_here.
      * by do 2 apply list_elem_of_further.
Qed.

(** The whole seconds that [get_wait_time] reports for a remaining
    duration [d]: never negative, not more than [d] when positive, and
    less than one second short of [d]. *)
Lemma int_total_seconds_bounds (d : Z) :
  let w := Z.max 0 (int_total_seconds d) in
  0 ≤ w ∧ (0 < w → timedelta_seconds w ≤ d) ∧ d < timedelta_seconds (w + 1).
Proof.
  unfold int_total_seconds, timedelta_seconds.
  destruct (decide (0 ≤ d)) as [Hd|Hd].
  - rewrite Z.quot_div_nonneg by lia.
    pose proof (Z.div_mod d 1000000 ltac:(lia)) as Hdiv.
    pose proof (Z.mod_pos_bound d 1000000 ltac:(lia)) as Hmod.
    assert (0 ≤ d / 1000000) by (apply Z.div_pos; lia).
    simpl. lia.
  - assert (d ÷ 1000000 ≤ 0 ÷ 1000000) as Hq
      by (apply Z.quot_le_mono; lia).
    rewrite Z.quot_0_l in Hq by lia. simpl. lia.
Qed.

Lemma filter_all {A} (P : A → Prop) `{∀ x, Decision (P x)} (l : list A) :
  Forall P l → filter P l = l.
Proof.
  induction 1 as [|x l Hx Hl IH]; [done|].
  rewrite filter_cons, decide_True by done. by rewrite IH.
Qed.

Lemma is_allowed_false_history self u now :
  (is_allowed self u now).1 = false →
  max_messages self ≤ len (history (is_allowed self u now).2 u)
  ∧ history (is_allowed self u now).2 u
    = filter (λ x, now - timedelta_seconds (time_window self) < x)
             (history self u).
Proof.
  intros Hres. pose proof (is_allowed_history self u now) as Hh.
  pose proof (is_allowed_true_iff self u now) as Hok.
  simpl in Hh. rewrite Hres in Hh, Hok. rewrite Hh. split; [|done].
  destruct (decide (max_messages self
                    ≤ len (filter (λ x, now - timedelta_seconds
                                                (time_window self) < x)
                                  (history self u)))) as [Hle|Hgt];
    [done|].
  assert (false = true) by (apply Hok; lia). done.
Qed.

Lemma get_wait_time_config self u now :
  max_messages (get_wait_time self u now).2 = max_messages self
  ∧ time_window (get_wait_time self u now).2 = time_window self.
Proof. unfold get_wait_time. by destruct (history self u). Qed.

Lemma limiter_step_bounded self c :
  (∀ u, len (history self u) ≤ max_messages self) →
  ∀ u, len (history (limiter_step self c) u)
       ≤ max_messages (limiter_step self c).
Proof.
  intros Hinv u. destruct c as [v now|v now]; simpl.
  - rewrite is_allowed_max_messages.
    destruct (decide (v = u)) as [->|Hne];
      [|by rewrite is_allowed_other].
    pose proof (is_allowed_history self u now) as Hh.
    pose proof (is_allowed_true_iff self u now) as Hok.
    simpl in Hh. rewrite Hh.
    destruct (is_allowed self u now).1.
    + assert (len (filter (λ x, now - timedelta_seconds (time_window self) < x)
                          (history self u)) < max_messages self)
        by by apply Hok.
      unfold len in *. rewrite length_app. simpl. lia.
    + pose proof (length_filter
                    (λ x, now - timedelta_seconds (time_window self) < x)
                    (history self u)).
      specialize (Hinv u). unfold len in *. lia.
  - destruct (get_wait_time_config self v now) as [-> _].
    by rewrite get_wait_time_history.
Qed.

Lemma run_limiter_bounded (calls : list limiter_call) :
  ∀ self,
    (∀ u, len (history self u) ≤ max_messages self) →
    ∀ u, len (history (run_limiter self calls) u)
         ≤ max_messages (run_limiter self calls).
Proof.
  unfold run_limiter.
  induction calls as [|c calls IH]; intros self Hinv; simpl; [done|].
  apply IH. by apply limiter_step_bounded.
Qed.

Lemma limiter_step_config self c :
  max_messages (limiter_step self c) = max_messages self
  ∧ time_window (limiter_step self c) = time_window self.
Proof.
  destruct c as [v now|v now]; simpl.
  - by rewrite is_allowed_max_messages, is_allowed_time_window.
  - apply get_wait_time_config.
Qed.

Lemma run_limiter_config (calls : list limiter_call) :
  ∀ self,
    max_messages (run_limiter self calls) = max_messages self
    ∧ time_window (run_limiter self calls) = time_window self.
Proof.
  unfold run_limiter.
  induction calls as [|c calls IH]; intros self; simpl; [done|].
  destruct (IH (limiter_step self c)) as [-> ->].
  apply limiter_step_config.
Qed.

End RateLimiterMore.

(** X1. However [is_allowed] and [get_wait_time] are interleaved, for
    whatever users and with whatever clock readings, the list kept for
    a user never holds more than [max_messages] timestamps. *)
Theorem history_never_exceeds_limit (limit window : Z)
    (calls : list limiter_call) (u : Z) :
  0 ≤ limit →
  len (history (run_limiter (new_RateLimiter limit window) calls) u) ≤ limit.
Proof.
  intros Hlimit.
  pose proof (run_limiter_bounded calls (new_RateLimiter limit window)) as Hb.
  destruct (run_limiter_config calls (new_RateLimiter limit window))
    as [Hmax _].
  rewrite Hmax in Hb. apply Hb.
  intros w. unfold history, new_RateLimiter; simpl. rewrite lookup_empty.
  simpl. unfold len; simpl. lia.
Qed.

Lemma history_never_exceeds_limit_witness :
  len (history (run_limiter (new_RateLimiter 2 60)
                  [IsAllowed 7 30; IsAllowed 7 20; GetWaitTime 7 25;
                   IsAllowed 7 10; IsAllowed 7 40]) 7) ≤ 2.
Proof. apply history_never_exceeds_limit. lia. Defined.

(** X2. When no stored timestamp of the user is in the future and the
    window is not negative, [get_wait_time] answers between 0 and
    [time_window] seconds. *)
Theorem get_wait_time_range (self : RateLimiter) (u now : Z) :
  0 ≤ time_window self →
  (∀ x, x ∈ history self u → x ≤ now) →
  0 ≤ (get_wait_time self u now).1 ≤ time_window self.
Proof.
  intros Hwin Hpast. rewrite get_wait_time_value.
  destruct (history self u) as [|x r] eqn:Hh; [lia|].
  set (d := py_min x r + timedelta_seconds (time_window self) - now).
  destruct (int_total_seconds_bounds d) as (Hlo & Hle & _).
  unfold int_total_seconds in *. split; [done|].
  destruct (decide (0 < Z.max 0 (d ÷ 1000000))) as [Hpos|Hzero]; [|lia].
  specialize (Hle Hpos).
  assert (py_min x r ≤ now) by (apply Hpast, py_min_elem).
  unfold timedelta_seconds in *. subst d. lia.
Qed.

Lemma get_wait_time_range_witness :
  0 ≤ (get_wait_time (is_allowed rate_limiter 7 0).2 7 500000).1 ≤ 60.
Proof.
  apply (get_wait_time_range (is_allowed rate_limiter 7 0).2 7 500000).
  - vm_compute. discriminate.
  - intros x Hx. vm_compute in Hx.
    apply list_elem_of_singleton in Hx. subst x. lia.
Defined.



(** X4. The answer of [get_wait_time] is short by less than a second:
    on a limiter that admits at least one message and whose list for
    the user is within the limit (as X1 shows it always is), after a
    rejection a retry made at least one second more than the reported
    time after the question is admitted. *)
Theorem retry_after_wait_time_plus_one_is_admitted (self : RateLimiter)
    (u now now' t : Z) :
  1 ≤ max_messages self →
  len (history self u) ≤ max_messages self →
  (is_allowed self u now).1 = false →
  let asked := get_wait_time (is_allowed self u now).2 u now' in
  now' + timedelta_seconds (asked.1 + 1) ≤ t →
  (is_allowed asked.2 u t).1 = true.
Proof.
  intros Hone Hbound Hrej asked Ht.
  destruct (is_allowed_false_history self u now Hrej) as [Hfull Hkept].
  set (s1 := (is_allowed self u now).2) in *.
  assert (history asked.2 u = history s1 u) as Hsame
    by apply get_wait_time_history.
  destruct (get_wait_time_config s1 u now') as [Hmax Hwin].
  fold asked in Hmax, Hwin.
  assert (max_messages s1 = max_messages self) as Hmax1
    by apply is_allowed_max_messages.
  pose proof (get_wait_time_value s1 u now') as Hval. fold asked in Hval.
  assert (len (history s1 u) ≤ max_messages self) as Hupper.
  { rewrite Hkept.
    pose proof (length_filter
                  (λ x, now - timedelta_seconds (time_window self) < x)
                  (history self u)).
    unfold len in *. lia. }
  apply is_allowed_true_iff. rewrite Hsame, Hmax, Hwin, Hmax1.
  destruct (history s1 u) as [|x r] eqn:Hh.
  { unfold len in Hfull; simpl in Hfull. lia. }
  rewrite Hval in Ht.
  set (d := py_min x r + timedelta_seconds (time_window s1) - now') in *.
  destruct (int_total_seconds_bounds d) as (_ & _ & Hshort).
  unfold int_total_seconds in Hshort.
  pose proof (length_filter_lt
                (λ y, t - timedelta_seconds (time_window s1) < y)
                (x :: r) (py_min x r) (py_min_elem x r)) as Hlt.
  assert (¬ t - timedelta_seconds (time_window s1) < py_min x r) as Hout
    by (unfold timedelta_seconds in *; subst d; lia).
  specialize (Hlt Hout). unfold len in *. lia.
Qed.

(** The same rejection: a retry 60 s after the question is admitted. *)
Lemma retry_after_wait_time_plus_one_is_admitted_witness :
  (is_allowed
     (get_wait_time
        (is_allowed
           (run_admits rate_limiter
              [(7, 0); (7, 0); (7, 0); (7, 0); (7, 0)]).1 7 500000).2
        7 500000).2
     7 60500000).1 = true.
Proof.
  apply (retry_after_wait_time_plus_one_is_admitted
           (run_admits rate_limiter
              [(7, 0); (7, 0); (7, 0); (7, 0); (7, 0)]).1 7 500000 500000
           60500000).
  - vm_compute. discriminate.
  - vm_compute. discriminate.
  - vm_compute. reflexivity.
  - vm_compute. discriminate.
Defined.

Section RateLimiterRuns.

Implicit Types (self : RateLimiter) (u v now t : Z) (log : list (Z * Z)).

(** [is_allowed] for a user looks only at the two limits and at the
    list of that user. *)
Lemma is_allowed_congr self self' u now :
  max_messages self = max_messages self' →
  time_window self = time_window self' →
  history self u = history self' u →
  (is_allowed self u now).1 = (is_allowed self' u now).1
  ∧ history (is_allowed self u now).2 u
    = history (is_allowed self' u now).2 u.
Proof.
  intros Hmax Hwin Hh. unfold is_allowed. rewrite Hmax, Hwin, Hh.
  case_bool_decide; simpl; by rewrite !history_set_history_eq.
Qed.

Lemma admitted_at_snoc_other u v now log :
  v ≠ u → admitted_at u (log ++ [(v, now)]) = admitted_at u log.
Proof.
  intros Hne. rewrite admitted_at_app, admitted_at_singleton.
  rewrite decide_False by done. by rewrite app_nil_r.
Qed.

Lemma foldl_admit_step_isolated u (calls : list (Z * Z)) :
  ∀ (st st' : RateLimiter * list (Z * Z)),
    max_messages st.1 = max_messages st'.1 →
    time_window st.1 = time_window st'.1 →
    history st.1 u = history st'.1 u →
    admitted_at u st.2 = admitted_at u st'.2 →
    let r := foldl admit_step st calls in
    let r' := foldl admit_step st'
                (filter (λ c : Z * Z, c.1 = u) calls) in
    history r.1 u = history r'.1 u ∧ admitted_at u r.2 = admitted_at u r'.2.
Proof.
  induction calls as [|[v now] calls IH];
    intros st st' Hmax Hwin Hh Hlog; [done|].
  rewrite filter_cons. simpl.
  destruct (decide (v = u)) as [->|Hne].
  - cbn [foldl]. apply IH; unfold admit_step; simpl.
    + by rewrite !is_allowed_max_messages.
    + by rewrite !is_allowed_time_window.
    + by apply is_allowed_congr.
    + destruct (is_allowed_congr st.1 st'.1 u now Hmax Hwin Hh) as [-> _].
      destruct (is_allowed st'.1 u now).1; [|done].
      by rewrite !admitted_at_app, Hlog.
  - apply IH; unfold admit_step; simpl.
    + by rewrite is_allowed_max_messages.
    + by rewrite is_allowed_time_window.
    + by rewrite is_allowed_other.
    + destruct (is_allowed st.1 v now).1; [|done].
      by rewrite admitted_at_snoc_other.
Qed.

Lemma filter_none {A} (P : A → Prop) `{∀ x, Decision (P x)} (l : list A) :
  Forall (λ x, ¬ P x) l → filter P l = [].
Proof.
  induction 1 as [|x l Hx Hl IH]; [done|].
  by rewrite filter_cons, decide_False.
Qed.

Lemma foldl_admit_step_config (calls : list (Z * Z)) :
  ∀ st : RateLimiter * list (Z * Z),
    max_messages (foldl admit_step st calls).1 = max_messages st.1
    ∧ time_window (foldl admit_step st calls).1 = time_window st.1.
Proof.
  induction calls as [|c calls IH]; intros st; simpl; [done|].
  destruct (IH (admit_step st c)) as [-> ->]. unfold admit_step; simpl.
  by rewrite is_allowed_max_messages, is_allowed_time_window.
Qed.

Lemma foldl_admit_step_nothing (calls : list (Z * Z)) :
  ∀ st : RateLimiter * list (Z * Z),
    max_messages st.1 ≤ 0 → (foldl admit_step st calls).2 = st.2.
Proof.
  induction calls as [|[v now] calls IH]; intros st Hmax; simpl; [done|].
  assert ((is_allowed st.1 v now).1 = false) as Hrej.
  { apply not_true_is_false. intros Hok. apply is_allowed_true_iff in Hok.
    unfold len in Hok. lia. }
  rewrite IH; unfold admit_step; simpl.
  - by rewrite Hrej.
  - by rewrite is_allowed_max_messages.
Qed.

Lemma foldl_admit_step_everything (calls : list (Z * Z)) :
  ∀ (st : RateLimiter * list (Z * Z)) (T : Z),
    1 ≤ max_messages st.1 →
    time_window st.1 ≤ 0 →
    (∀ u x, x ∈ history st.1 u → x ≤ T) →
    Forall (λ c : Z * Z, T ≤ c.2) calls →
    StronglySorted Z.le (calls.*2) →
    (foldl admit_step st calls).2 = st.2 ++ calls.
Proof.
  induction calls as [|[v now] calls IH];
    intros st T Hmax Hwin Hpast Hge Hsorted; simpl.
  - by rewrite app_nil_r.
  - apply Forall_cons in Hge as [Hnow Hge]. simpl in Hnow.
    rewrite fmap_cons in Hsorted.
    apply StronglySorted_inv in Hsorted as [Hsorted Hhd].
    assert (filter (λ x, now - timedelta_seconds (time_window st.1) < x)
                   (history st.1 v) = []) as Hnone.
    { apply filter_none, Forall_forall. intros x Hx.
      apply Hpast in Hx. unfold timedelta_seconds. lia. }
    assert ((is_allowed st.1 v now).1 = true) as Hok.
    { apply is_allowed_true_iff. rewrite Hnone. unfold len; simpl. lia. }
    rewrite (IH _ now); unfold admit_step; simpl.
    + rewrite Hok. by rewrite <- (assoc_L (++)).
    + by rewrite is_allowed_max_messages.
    + by rewrite is_allowed_time_window.
    + intros u x. destruct (decide (v = u)) as [->|Hne].
      * pose proof (is_allowed_history st.1 u now) as Hh. simpl in Hh.
        rewrite Hh, Hok, Hnone. simpl. intros Hx.
        apply list_elem_of_singleton in Hx. lia.
      * rewrite is_allowed_other by done. intros Hx.
        apply Hpast in Hx. lia.
    + apply Forall_forall. intros d Hd.
      rewrite Forall_forall in Hhd. apply Hhd.
      apply list_elem_of_fmap. by exists d.
    + done.
Qed.

Lemma foldl_admit_step_burst u t (k : nat) :
  ∀ limit window,
    0 ≤ limit → 0 < window →
    let r := run_admits (new_RateLimiter limit window) (replicate k (u, t)) in
    history r.1 u = replicate (k `min` Z.to_nat limit) t
    ∧ r.2 = replicate (k `min` Z.to_nat limit) (u, t).
Proof.
  intros limit window Hlimit Hwin. unfold run_admits.
  induction k as [|k [IHh IHl]].
  - simpl. split; [|done].
    unfold history, new_RateLimiter; simpl. by rewrite lookup_empty.
  - rewrite replicate_S_end, foldl_snoc.
    remember (S k `min` Z.to_nat limit)%nat as m' eqn:Hm'.
    set (st := foldl admit_step (new_RateLimiter limit window, [])
                     (replicate k (u, t))) in *.
    destruct (foldl_admit_step_config (replicate k (u, t))
                (new_RateLimiter limit window, [])) as [Hmax Hw].
    fold st in Hmax, Hw. simpl in Hmax, Hw.
    pose proof (is_allowed_history st.1 u t) as Hh.
    pose proof (is_allowed_true_iff st.1 u t) as Hok.
    simpl in Hh. rewrite Hw, IHh in Hh, Hok. rewrite Hmax in Hok.
    assert (filter (λ x, t - timedelta_seconds window < x)
                   (replicate (k `min` Z.to_nat limit) t)
            = replicate (k `min` Z.to_nat limit) t) as Hkeep.
    { apply filter_all, Forall_forall. intros x Hx.
      apply elem_of_replicate in Hx as [-> _].
      unfold timedelta_seconds. lia. }
    rewrite Hkeep in Hh, Hok. unfold len in Hok.
    rewrite length_replicate in Hok.
    unfold admit_step; simpl. rewrite Hh.
    destruct (is_allowed st.1 u t).1.
    + assert (Z.of_nat (k `min` Z.to_nat limit) < limit) as Hroom
        by by apply Hok.
      replace m' with (S (k `min` Z.to_nat limit)) by lia.
      rewrite IHl. by rewrite !replicate_S_end.
    + assert (¬ Z.of_nat (k `min` Z.to_nat limit) < limit) as Hfull
        by (intros Hlt; by apply Hok in Hlt).
      replace m' with (k `min` Z.to_nat limit)%nat by lia.
      done.
Qed.

End RateLimiterRuns.

(** X5. Users do not disturb each other: what [is_allowed] answers to
    one user, and what it keeps for that user, is the same whether or
    not calls of other users are mixed in, whatever the clock does. *)
Theorem is_allowed_isolates_users (limit window : Z)
    (calls : list (Z * Z)) (u : Z) :
  let mixed := run_admits (new_RateLimiter limit window) calls in
  let alone := run_admits (new_RateLimiter limit window)
                 (filter (λ c : Z * Z, c.1 = u) calls) in
  admitted_at u mixed.2 = admitted_at u alone.2
  ∧ history mixed.1 u = history alone.1 u.
Proof.
  intros mixed alone.
  destruct (foldl_admit_step_isolated u calls
              (new_RateLimiter limit window, [])
              (new_RateLimiter limit window, [])) as [Hh Hlog]; done.
Qed.

(** X6. A burst: of [k] calls that one user makes at the same instant
    on a fresh limiter with a positive window, exactly the first
    [max_messages] are admitted (all [k] when there are fewer). *)
Theorem burst_admits_up_to_limit (limit window u t : Z) (k : nat) :
  0 ≤ limit →
  0 < window →
  (run_admits (new_RateLimiter limit window) (replicate k (u, t))).2
  = replicate (k `min` Z.to_nat limit) (u, t).
Proof.
  intros Hlimit Hwin.
  by destruct (foldl_admit_step_burst u t k limit window Hlimit Hwin).
Qed.

Lemma burst_admits_up_to_limit_witness :
  (run_admits (new_RateLimiter 5 60) (replicate 8 (7, 0))).2
  = replicate (8 `min` Z.to_nat 5) (7, 0).
Proof. apply burst_admits_up_to_limit; lia. Defined.

(** X7. The limits are used as given, also when they make no sense: a
    limiter with [max_messages <= 0] never admits anything, and a
    limiter with [max_messages >= 1] and [time_window <= 0] admits
    every call of a clock that does not go back. *)
Theorem degenerate_limits (limit window : Z) (calls : list (Z * Z)) :
  (limit ≤ 0 →
   (run_admits (new_RateLimiter limit window) calls).2 = [])
  ∧ (1 ≤ limit → window ≤ 0 → StronglySorted Z.le (calls.*2) →
     (run_admits (new_RateLimiter limit window) calls).2 = calls).
Proof.
  split.
  - intros Hlimit. unfold run_admits.
    by rewrite foldl_admit_step_nothing.
  - intros Hlimit Hwin Hsorted. unfold run_admits.
    rewrite (foldl_admit_step_everything calls _ (foldr Z.min 0 (calls.*2)));
      try done.
    + intros u x. unfold history, new_RateLimiter; simpl.
      rewrite lookup_empty. simpl. intros Hx. by apply elem_of_nil in Hx.
    + clear. induction calls as [|c calls IH]; [done|].
      rewrite fmap_cons. simpl. constructor; [lia|].
      eapply Forall_impl; [exact IH|]. simpl. intros d Hd. lia.
Qed.

(** A window of 0 seconds: three calls in a row are all admitted. *)
Lemma degenerate_limits_witness :
  (run_admits (new_RateLimiter 1 0) [(7, 0); (7, 0); (7, 5)]).2
  = [(7, 0); (7, 0); (7, 5)].
Proof.
  destruct (degenerate_limits 1 0 [(7, 0); (7, 0); (7, 5)]) as [_ Hall].
  apply Hall; [lia|lia|].
  rewrite !fmap_cons, fmap_nil. unfold snd. sorted_by_lia.
Defined.

(* ===================================================================== *)
(** * Further properties of the context store *)
(* ===================================================================== *)

Section StripFacts.

Implicit Types (s : pystr) (c : Z).

Lemma lstrip_idemp s : lstrip (lstrip s) = lstrip s.
Proof.
  induction s as [|c r IH]; [done|]. simpl.
  destruct (isspace c) eqn:Hc; [done|]. simpl. by rewrite Hc.
Qed.

Lemma lstrip_cons_id c s : isspace c = false → lstrip (c :: s) = c :: s.
Proof. intros Hc. simpl. by rewrite Hc. Qed.

Lemma lstrip_head s c r : lstrip s = c :: r → isspace c = false.
Proof.
  induction s as [|d s IH]; [done|]. simpl.
  destruct (isspace d) eqn:Hd; [done|]. by intros [= <- _].
Qed.

(** [lstrip] removes a run of white space from the front. *)
Lemma lstrip_split s :
  ∃ k, s = k ++ lstrip s ∧ Forall (λ c, isspace c = true) k.
Proof.
  induction s as [|c r (k & Hk & Hsp)].
  - by exists [].
  - simpl. destruct (isspace c) eqn:Hc.
    + exists (c :: k). split; [simpl; by f_equal|]. by constructor.
    + by exists [].
Qed.

Lemma rstrip_idemp s : rstrip (rstrip s) = rstrip s.
Proof. unfold rstrip. by rewrite reverse_involutive, lstrip_idemp. Qed.

(** [rstrip] removes a run of white space from the end. *)
Lemma rstrip_split s :
  ∃ k, s = rstrip s ++ k ∧ Forall (λ c, isspace c = true) k.
Proof.
  unfold rstrip. destruct (lstrip_split (reverse s)) as (k & Hk & Hsp).
  exists (reverse k). split.
  - rewrite <- reverse_app, <- Hk. by rewrite reverse_involutive.
  - by apply Forall_reverse.
Qed.

Lemma rstrip_keeps_head c r :
  isspace c = false → ∃ r', rstrip (c :: r) = c :: r'.
Proof.
  intros Hc. destruct (rstrip_split (c :: r)) as (k & Hk & Hsp).
  destruct (rstrip (c :: r)) as [|d r'] eqn:Hr.
  - simpl in Hk. subst k. apply Forall_cons in Hsp as [Hsp _]. congruence.
  - simpl in Hk. injection Hk as <- _. by exists r'.
Qed.

Lemma strip_idemp s : strip (strip s) = strip s.
Proof.
  unfold strip.
  assert (lstrip (rstrip (lstrip s)) = rstrip (lstrip s)) as ->.
  { destruct (lstrip s) as [|c r] eqn:Hl; [done|].
    destruct (rstrip_keeps_head c r (lstrip_head _ _ _ Hl)) as [r' ->].
    apply lstrip_cons_id. by apply (lstrip_head s c r). }
  apply rstrip_idemp.
Qed.

End StripFacts.

Section StoreInvariant.

Variable cfg : Config.

Implicit Types (self : ContextManager) (u v now : Z).

Lemma store_wf_new : store_wf cfg new_ContextManager.
Proof.
  split.
  - intros u. unfold new_ContextManager; simpl. by rewrite !lookup_empty.
  - intros u messages. unfold new_ContextManager; simpl.
    by rewrite lookup_empty.
Qed.

Lemma store_wf_clear_context self u :
  store_wf cfg self → store_wf cfg (clear_context self u).
Proof.
  intros [Hdom Hbuf]. split.
  - intros v. unfold clear_context; simpl.
    destruct (decide (u = v)) as [->|Hne].
    + rewrite !lookup_delete_eq. split; intros [? ?]; done.
    + rewrite !lookup_delete_ne by done. apply Hdom.
  - intros v messages. unfold clear_context; simpl.
    intros Hv. apply lookup_delete_Some in Hv as [_ Hv].
    by apply (Hbuf v).
Qed.

Lemma store_wf_add_message self u txt mid now_msg now :
  0 < CONTEXT_MAX_MESSAGES cfg →
  store_wf cfg self →
  store_wf cfg (add_message cfg self u txt mid now_msg now).
Proof.
  intros Hmax [Hdom Hbuf].
  destruct (too_short txt) eqn:Hshort.
  { by rewrite add_message_too_short. }
  destruct (add_message_stored cfg self u txt mid now_msg now Hshort Hmax)
    as [Hctx Hact].
  split.
  - intros v. rewrite Hctx, Hact.
    destruct (decide (u = v)) as [->|Hne].
    + rewrite !lookup_insert_eq. split; eauto.
    + rewrite !lookup_insert_ne by done. apply Hdom.
  - intros v messages. rewrite Hctx.
    destruct (decide (u = v)) as [->|Hne].
    + rewrite lookup_insert_eq. intros [= <-].
      split; [|split].
      * intros Hnil.
        pose proof (last_keep_last_snoc (CONTEXT_MAX_MESSAGES cfg)
                      (buffer self v)
                      {| text := strip txt; timestamp := now_msg;
                         message_id := mid |} Hmax) as Hl.
        by rewrite Hnil in Hl.
      * apply keep_last_length. lia.
      * unfold keep_last. apply Forall_drop, Forall_app. split.
        -- unfold buffer. destruct (user_contexts self !! v) eqn:Hv; [|done].
           by apply (Hbuf v).
        -- constructor; [|done]. simpl. split; [apply strip_idemp|].
           by apply too_short_false_iff.
    + rewrite lookup_insert_ne by done. apply (Hbuf v).
Qed.

(** A read leaves the store as it is or clears the user it asks for. *)
Lemma reads_state self u now :
  ((has_context cfg self u now).2 = self
   ∨ (has_context cfg self u now).2 = clear_context self u)
  ∧ (get_context_text cfg self u now).2 = (has_context cfg self u now).2
  ∧ (get_message_count cfg self u now).2 = (has_context cfg self u now).2.
Proof.
  unfold get_message_count, get_context_text, has_context.
  destruct (user_contexts self !! u) as [[|m ms]|]; simpl; auto.
  destruct (_is_context_expired cfg self u now); simpl; auto.
  split; [auto|]. split; [|done].
  by destruct (CONTEXT_MAX_TOKENS cfg <? _).
Qed.

Lemma store_wf_foldl_clear (l : list Z) :
  ∀ self, store_wf cfg self → store_wf cfg (foldl clear_context self l).
Proof.
  induction l as [|x l IH]; intros self Hwf; simpl; [done|].
  by apply IH, store_wf_clear_context.
Qed.

Lemma store_wf_step self c :
  0 < CONTEXT_MAX_MESSAGES cfg →
  store_wf cfg self → store_wf cfg (store_step cfg self c).
Proof.
  intros Hmax Hwf.
  destruct c as [u txt mid now_msg now|u now|u now|u now|u|clock]; simpl.
  - by apply store_wf_add_message.
  - destruct (reads_state self u now) as ([Hs|Hs] & -> & _); rewrite Hs;
      [done|by apply store_wf_clear_context].
  - destruct (reads_state self u now) as ([Hs|Hs] & _ & _); rewrite Hs;
      [done|by apply store_wf_clear_context].
  - destruct (reads_state self u now) as ([Hs|Hs] & _ & ->); rewrite Hs;
      [done|by apply store_wf_clear_context].
  - by apply store_wf_clear_context.
  - by apply store_wf_foldl_clear.
Qed.

Lemma store_wf_run (calls : list store_call) :
  0 < CONTEXT_MAX_MESSAGES cfg →
  ∀ self, store_wf cfg self → store_wf cfg (run_store cfg self calls).
Proof.
  intros Hmax. unfold run_store.
  induction calls as [|c calls IH]; intros self Hwf; simpl; [done|].
  by apply IH, store_wf_step.
Qed.

End StoreInvariant.

Lemma store_invariant_holds (cfg : Config) (calls : list store_call) :
  0 < CONTEXT_MAX_MESSAGES cfg →
  store_wf cfg (run_store cfg new_ContextManager calls).
Proof. intros Hmax. by apply store_wf_run, store_wf_new. Qed.

(** X8. The invariant of the store. After any sequence of calls of
    [add_message], [get_context_text], [has_context],
    [get_message_count], [clear_context] and
    [cleanup_expired_contexts] on a fresh store, with any clock: a user
    has a buffer exactly when the user has an activity record, no
    stored buffer is empty or longer than [CONTEXT_MAX_MESSAGES], and
    every stored text is stripped and has at least 5 characters. *)
Theorem store_invariant (cfg : Config) (calls : list store_call) :
  0 < CONTEXT_MAX_MESSAGES cfg →
  store_wf cfg (run_store cfg new_ContextManager calls).
Proof. intros Hmax. by apply store_wf_run, store_wf_new. Qed.

Lemma store_invariant_witness :
  store_wf config
    (run_store config new_ContextManager
       [AddMessage 1 hello None 0 0; HasContext 1 5;
        AddMessage 2 hello (Some 4) 7 7; ClearContext 1;
        CleanupExpiredContexts (λ _, 9); GetMessageCount 2 9]).
Proof. apply store_invariant. vm_compute. reflexivity. Defined.

Section StoreReads.

Variable cfg : Config.

Implicit Types (self : ContextManager) (u v now : Z).

(** The three reads look only at the two records of the user. *)
Lemma reads_congr self self' u now :
  user_contexts self !! u = user_contexts self' !! u →
  user_last_activity self !! u = user_last_activity self' !! u →
  (has_context cfg self u now).1 = (has_context cfg self' u now).1
  ∧ (get_context_text cfg self u now).1 = (get_context_text cfg self' u now).1
  ∧ (get_message_count cfg self u now).1
    = (get_message_count cfg self' u now).1.
Proof.
  intros Hctx Hact.
  unfold get_message_count, get_context_text, has_context,
    _truncate_context, _is_context_expired.
  rewrite <- Hctx, <- Hact.
  destruct (user_contexts self !! u) as [[|m ms]|] eqn:Hu; simpl; try done.
  destruct (user_last_activity self !! u) as [last|]; simpl; [|done].
  case_bool_decide; simpl; [done|].
  rewrite <- ?Hctx, ?Hu. simpl. split; [done|].
  split; [by destruct (CONTEXT_MAX_TOKENS cfg <? _)|done].
Qed.

Lemma truncate_context_length self u :
  0 ≤ CONTEXT_MAX_TOKENS cfg →
  len (_truncate_context self u (CONTEXT_MAX_TOKENS cfg))
  ≤ CONTEXT_MAX_TOKENS cfg * 4.
Proof.
  intros Htok. unfold _truncate_context.
  destruct (truncate_loop _ _ _) as [out|] eqn:Hloop.
  - by apply truncate_loop_Some in Hloop as (_ & _ & _ & Hlen & _).
  - destruct (last _) as [msg|].
    + apply slice_to_length. lia.
    + unfold len; simpl. lia.
Qed.

Lemma join_nonempty (sep p : pystr) (parts : list pystr) :
  p ≠ [] → join sep (p :: parts) ≠ [].
Proof.
  intros Hp. destruct parts as [|q parts]; simpl; [done|].
  destruct p; [done|]. done.
Qed.

Lemma block_nonempty (i : Z) (msg : ContextMessage) : block i msg ≠ [].
Proof. by unfold block, label_open. Qed.

Lemma truncate_context_nonempty self u :
  1 ≤ CONTEXT_MAX_TOKENS cfg →
  buffer self u ≠ [] →
  Forall (λ m, 5 ≤ len (text m)) (buffer self u) →
  _truncate_context self u (CONTEXT_MAX_TOKENS cfg) ≠ [].
Proof.
  intros Htok Hne Htexts. unfold _truncate_context. fold (buffer self u).
  destruct (truncate_loop _ _ _) as [out|] eqn:Hloop.
  - apply truncate_loop_Some in Hloop as (i & Hi & -> & _).
    unfold suffix_parts. rewrite slice_from_last by done.
    destruct (drop (length (buffer self u) - i) (buffer self u))
      as [|m ms] eqn:Hd.
    + apply (f_equal length) in Hd. rewrite length_drop in Hd.
      simpl in Hd. lia.
    + simpl map. apply join_nonempty, block_nonempty.
  - destruct (last (buffer self u)) as [msg|] eqn:Hlast.
    + assert (5 ≤ len (text msg)) as Hlen.
      { rewrite Forall_forall in Htexts. apply Htexts.
        apply last_Some in Hlast as [l' ->].
        apply elem_of_app. right. apply list_elem_of_here. }
      destruct (slice_to_length (CONTEXT_MAX_TOKENS cfg * 4) (text msg))
        as [-> _]; [lia|].
      intros Hnil. apply (f_equal length) in Hnil.
      rewrite length_take in Hnil. unfold len in Hlen. simpl in Hnil. lia.
    + apply last_None in Hlast. done.
Qed.

Lemma full_context_text_nonempty (messages : list ContextMessage) :
  messages ≠ [] → full_context_text messages ≠ [].
Proof.
  destruct messages as [|m ms]; [done|]. intros _.
  unfold full_context_text. simpl map. apply join_nonempty, block_nonempty.
Qed.

End StoreReads.

(** X9. [clear_context] forgets the user and nothing else: it removes
    both records of the user, so that every read then finds nothing and
    changes nothing; the records of other users stay; clearing twice is
    clearing once, clearing two users works in either order, and
    clearing a user that has no records changes nothing. *)
Theorem clear_context_forgets (cfg : Config) (self : ContextManager)
    (u v now : Z) :
  has_context cfg (clear_context self u) u now = (false, clear_context self u)
  ∧ get_context_text cfg (clear_context self u) u now
    = (None, clear_context self u)
  ∧ get_message_count cfg (clear_context self u) u now
    = (0, clear_context self u)
  ∧ (u ≠ v →
     user_contexts (clear_context self u) !! v = user_contexts self !! v
     ∧ user_last_activity (clear_context self u) !! v
       = user_last_activity self !! v)
  ∧ clear_context (clear_context self u) u = clear_context self u
  ∧ clear_context (clear_context self u) v
    = clear_context (clear_context self v) u
  ∧ (user_contexts self !! u = None → user_last_activity self !! u = None →
     clear_context self u = self).
Proof.
  destruct (buffer_clear_context self u) as [Hctx Hact].
  assert (has_context cfg (clear_context self u) u now
          = (false, clear_context self u)) as Hhas
    by (unfold has_context; by rewrite Hctx).
  split; [done|]. split; [unfold get_context_text; by rewrite Hctx|].
  split; [unfold get_message_count; by rewrite Hhas|].
  split; [|split; [|split]].
  - intros Hne. unfold clear_context; simpl.
    by rewrite !lookup_delete_ne.
  - unfold clear_context; simpl. by rewrite !delete_delete_eq.
  - unfold clear_context; simpl. f_equal; apply delete_delete.
  - intros Hc Ha. unfold clear_context. rewrite !delete_id by done.
    by destruct self.
Qed.

(** X10. Whatever the store holds, a rendering that [get_context_text]
    returns has an estimate of at most [CONTEXT_MAX_TOKENS] tokens, at
    four characters a token. *)
Theorem get_context_text_token_bound (cfg : Config) (self : ContextManager)
    (u now : Z) (out : pystr) :
  0 ≤ CONTEXT_MAX_TOKENS cfg →
  (get_context_text cfg self u now).1 = Some out →
  len out / 4 ≤ CONTEXT_MAX_TOKENS cfg.
Proof.
  intros Htok. unfold get_context_text.
  destruct (user_contexts self !! u) as [[|m ms]|]; simpl; try done.
  destruct (_is_context_expired cfg self u now); simpl; [done|].
  destruct (CONTEXT_MAX_TOKENS cfg <? _) eqn:Hover; simpl; intros [= <-].
  - pose proof (truncate_context_length cfg self u Htok) as Hlen.
    apply Z.div_le_upper_bound; lia.
  - by apply Z.ltb_ge in Hover.
Qed.

Lemma get_context_text_token_bound_witness :
  len (full_context_text (buffer one_long_message 1)) / 4 ≤ 4000.
Proof.
  apply (get_context_text_token_bound config one_long_message 1 0).
  - vm_compute. discriminate.
  - vm_compute. reflexivity.
Defined.

(** X11. The three reads agree. At one clock reading, [has_context] is
    [True] exactly when [get_context_text] returns a text and exactly
    when [get_message_count] is positive; the count is then the length
    of the buffer and the store is untouched; and all three leave the
    same store behind. *)
Theorem reads_agree (cfg : Config) (self : ContextManager) (u now : Z) :
  let has := has_context cfg self u now in
  let txt := get_context_text cfg self u now in
  let count := get_message_count cfg self u now in
  txt.2 = has.2
  ∧ count.2 = has.2
  ∧ (has.1 = true ↔ is_Some txt.1)
  ∧ (has.1 = true ↔ 0 < count.1)
  ∧ (has.1 = false → count.1 = 0)
  ∧ (has.1 = true → count.1 = len (buffer self u) ∧ has.2 = self).
Proof.
  intros has txt count. subst has txt count.
  destruct (reads_state cfg self u now) as (_ & Htxt & Hcount).
  split; [done|]. split; [done|].
  assert (∀ A (x : option A) (n : Z),
            x = None → n = 0 →
            (false = true ↔ is_Some x) ∧ (false = true ↔ 0 < n)
            ∧ (false = false → n = 0)
            ∧ (false = true → n = len (buffer self u) ∧ self = self))
    as Hnothing.
  { intros A x n -> ->. split; [split; [done|by intros [? ?]]|].
    split; [split; [done|lia]|]. done. }
  unfold get_message_count, get_context_text, has_context.
  destruct (user_contexts self !! u) as [[|m ms]|] eqn:Hu; simpl.
  - by apply Hnothing.
  - destruct (_is_context_expired cfg self u now); simpl.
    + destruct (Hnothing _ (@None pystr) 0 eq_refl eq_refl)
        as (H1 & H2 & H3 & H4).
      split; [done|]. split; [done|]. split; [done|]. intros Heq. done.
    + unfold buffer. rewrite Hu. simpl.
      split; [|split; [|split]].
      * split; [|done]. intros _.
        destruct (CONTEXT_MAX_TOKENS cfg <? _); simpl; eauto.
      * unfold len. simpl. split; [lia|done].
      * done.
      * done.
  - by apply Hnothing.
Qed.

Section SweepFacts.

Variable cfg : Config.

Implicit Types (self : ContextManager) (u v now : Z).

(** The records of a user after a sweep made at one clock reading. *)
Lemma cleanup_lookup self now u :
  let self' := (cleanup_expired_contexts cfg self (λ _, now)).2 in
  (user_contexts self' !! u
   = if _is_context_expired cfg self u now then None
     else user_contexts self !! u)
  ∧ (user_last_activity self' !! u
     = if decide (u ∈ expired_users cfg self (λ _, now)) then None
       else user_last_activity self !! u).
Proof.
  intros self'. subst self'. unfold cleanup_expired_contexts; simpl.
  destruct (foldl_clear_context (expired_users cfg self (λ _, now)) self u)
    as [-> ->].
  split; [|done].
  pose proof (elem_of_expired_users cfg self (λ _, now) u) as Hin.
  simpl in Hin.
  destruct (decide (u ∈ expired_users cfg self (λ _, now))) as [Hu|Hu].
  - apply Hin in Hu as [_ ->]. done.
  - destruct (_is_context_expired cfg self u now) eqn:Hexp; [|done].
    destruct (user_contexts self !! u) eqn:Hctx; [|done].
    exfalso. apply Hu, Hin. eauto.
Qed.

Lemma cleanup_keeps_expiry self now u :
  let self' := (cleanup_expired_contexts cfg self (λ _, now)).2 in
  is_Some (user_contexts self' !! u) →
  _is_context_expired cfg self' u now = false.
Proof.
  intros self'. destruct (cleanup_lookup self now u) as [Hctx Hact].
  fold self' in Hctx, Hact. rewrite Hctx.
  destruct (_is_context_expired cfg self u now) eqn:Hexp;
    [by intros [? ?]|].
  intros Hsome. unfold _is_context_expired in *. rewrite Hact.
  destruct (decide (u ∈ expired_users cfg self (λ _, now))) as [Hu|Hu];
    [|done].
  apply elem_of_expired_users in Hu as [_ Hu].
  unfold _is_context_expired in Hu. congruence.
Qed.

End SweepFacts.

(** X12. The sweep cannot be seen through the reads and need not be
    repeated: at the clock reading of a sweep, [has_context],
    [get_context_text] and [get_message_count] return for every user
    what they would have returned without the sweep, every buffer left
    is not expired, and a second sweep at that reading removes
    nothing. *)
Theorem cleanup_expired_contexts_transparent (cfg : Config)
    (self : ContextManager) (now u : Z) :
  let swept := (cleanup_expired_contexts cfg self (λ _, now)).2 in
  (has_context cfg swept u now).1 = (has_context cfg self u now).1
  ∧ (get_context_text cfg swept u now).1 = (get_context_text cfg self u now).1
  ∧ (get_message_count cfg swept u now).1
    = (get_message_count cfg self u now).1
  ∧ (is_Some (user_contexts swept !! u) →
     _is_context_expired cfg swept u now = false)
  ∧ expired_users cfg swept (λ _, now) = []
  ∧ (cleanup_expired_contexts cfg swept (λ _, now)).2 = swept.
Proof.
  intros swept.
  destruct (cleanup_lookup cfg self now u) as [Hctx Hact].
  fold swept in Hctx, Hact.
  assert (expired_users cfg swept (λ _, now) = []) as Hnone.
  { apply elem_of_nil_inv. intros v Hv.
    apply elem_of_expired_users in Hv as [Hsome Hexp].
    pose proof (cleanup_keeps_expiry cfg self now v Hsome) as Hfresh.
    fold swept in Hfresh. congruence. }
  assert ((has_context cfg swept u now).1 = (has_context cfg self u now).1
          ∧ (get_context_text cfg swept u now).1
            = (get_context_text cfg self u now).1
          ∧ (get_message_count cfg swept u now).1
            = (get_message_count cfg self u now).1) as (H1 & H2 & H3).
  { destruct (_is_context_expired cfg self u now) eqn:Hexp.
    - (* expired: gone after the sweep, refused before it *)
      unfold get_message_count, get_context_text, has_context.
      rewrite Hctx, Hexp.
      destruct (user_contexts self !! u) as [[|m ms]|]; done.
    - (* not expired: both records are as before *)
      apply reads_congr; [done|]. rewrite Hact.
      destruct (decide (u ∈ expired_users cfg self (λ _, now))) as [Hu|Hu];
        [|done].
      apply elem_of_expired_users in Hu as [_ Hu]. congruence. }
  split; [done|]. split; [done|]. split; [done|].
  split; [apply (cleanup_keeps_expiry cfg self now u)|].
  split; [done|].
  unfold cleanup_expired_contexts at 1. simpl. by rewrite Hnone.
Qed.

(** X13. On a store built by the methods, with a token limit of at
    least one, [get_context_text] never returns the empty string: what
    it returns is absent or has characters. *)
Theorem get_context_text_never_empty (cfg : Config)
    (calls : list store_call) (u now : Z) :
  0 < CONTEXT_MAX_MESSAGES cfg →
  1 ≤ CONTEXT_MAX_TOKENS cfg →
  (get_context_text cfg (run_store cfg new_ContextManager calls) u now).1
  ≠ Some [].
Proof.
  intros Hmax Htok.
  destruct (store_invariant_holds cfg calls Hmax) as [_ Hbuf].
  set (self := run_store cfg new_ContextManager calls) in *.
  unfold get_context_text.
  destruct (user_contexts self !! u) as [[|m ms]|] eqn:Hu; simpl; try done.
  destruct (_is_context_expired cfg self u now); simpl; [done|].
  destruct (Hbuf u (m :: ms) Hu) as (_ & _ & Htexts).
  destruct (CONTEXT_MAX_TOKENS cfg <? _); simpl; intros [= Hnil].
  - apply (truncate_context_nonempty cfg self u Htok); try done.
    + unfold buffer. by rewrite Hu.
    + unfold buffer. rewrite Hu. simpl.
      eapply Forall_impl; [exact Htexts|]. by intros x [_ ?].
  - by apply (full_context_text_nonempty (m :: ms)).
Qed.

Lemma get_context_text_never_empty_witness :
  (get_context_text config
     (run_store config new_ContextManager [AddMessage 1 hello None 0 0])
     1 5).1 ≠ Some [].
Proof. apply get_context_text_never_empty; vm_compute; [reflexivity|discriminate]. Defined.

(** X14. On a store built by the methods, [get_message_count] is
    between 0 and [CONTEXT_MAX_MESSAGES]. *)
Theorem get_message_count_range (cfg : Config) (calls : list store_call)
    (u now : Z) :
  0 < CONTEXT_MAX_MESSAGES cfg →
  0 ≤ (get_message_count cfg (run_store cfg new_ContextManager calls) u now).1
    ≤ CONTEXT_MAX_MESSAGES cfg.
Proof.
  intros Hmax.
  destruct (store_invariant_holds cfg calls Hmax) as [_ Hbuf].
  set (self := run_store cfg new_ContextManager calls) in *.
  unfold get_message_count, has_context.
  destruct (user_contexts self !! u) as [[|m ms]|] eqn:Hu; simpl; try lia.
  destruct (_is_context_expired cfg self u now); simpl; [lia|].
  rewrite Hu. simpl.
  destruct (Hbuf u (m :: ms) Hu) as (_ & Hlen & _).
  unfold len in *. simpl in *. lia.
Qed.

Lemma get_message_count_range_witness :
  0 ≤ (get_message_count config
         (run_store config new_ContextManager
            (map (λ t, AddMessage 1 hello None t t)
                 [1; 2; 3; 4; 5; 6; 7; 8; 9; 10; 11; 12])) 1 12).1
    ≤ 10.
Proof. apply get_message_count_range. vm_compute. reflexivity. Defined.

(** X15. Once an expired buffer has been looked at, the next message
    starts afresh: after [has_context] (or any other read) has found
    the buffer expired, a valid [add_message] leaves a buffer of
    exactly the new entry. *)
Theorem add_message_after_observed_expiry (cfg : Config)
    (self : ContextManager) (u last now : Z) (txt : pystr) (mid : option Z)
    (now_msg now' : Z) :
  0 < CONTEXT_MAX_MESSAGES cfg →
  buffer self u ≠ [] →
  user_last_activity self !! u = Some last →
  timedelta_minutes (CONTEXT_TIMEOUT_MINUTES cfg) < now - last →
  5 ≤ len (strip txt) →
  let observed := (has_context cfg self u now).2 in
  let message :=
    {| text := strip txt; timestamp := now_msg; message_id := mid |} in
  (has_context cfg self u now).1 = false
  ∧ (get_context_text cfg self u now).2 = observed
  ∧ (get_message_count cfg self u now).2 = observed
  ∧ user_contexts (add_message cfg observed u txt mid now_msg now') !! u
    = Some [message]
  ∧ user_last_activity (add_message cfg observed u txt mid now_msg now') !! u
    = Some now'.
Proof.
  intros Hmax Hne Hlast Hold Hlong observed message.
  apply too_short_false_iff in Hlong.
  destruct (reads_state cfg self u now) as (_ & Htxt & Hcount).
  fold observed in Htxt, Hcount.
  assert (_is_context_expired cfg self u now = true) as Hexp
    by by apply (is_context_expired_iff cfg self u last now Hlast).
  pose proof (has_context_nonempty cfg self u now Hne) as Hhas.
  rewrite Hexp in Hhas.
  assert (observed = clear_context self u) as Hobs
    by (subst observed; by rewrite Hhas).
  split; [by rewrite Hhas|]. split; [done|]. split; [done|].
  destruct (add_message_stored cfg observed u txt mid now_msg now' Hlong Hmax)
    as [Hctx Hact].
  rewrite Hctx, Hact, !lookup_insert_eq. split; [|done].
  assert (buffer observed u = []) as ->.
  { unfold buffer. rewrite Hobs.
    by destruct (buffer_clear_context self u) as [-> _]. }
  simpl. rewrite keep_last_short; [done|].
  unfold len; simpl. lia.
Qed.

Lemma add_message_after_observed_expiry_witness :
  user_contexts
    (add_message config
       (has_context config
          (run_appends config new_ContextManager [hello_at 0]) 1
          (timedelta_minutes 31)).2
       1 hello None (timedelta_minutes 31) (timedelta_minutes 31)) !! 1
  = Some [{| text := strip hello; timestamp := timedelta_minutes 31;
             message_id := None |}].
Proof.
  destruct (add_message_after_observed_expiry config
              (run_appends config new_ContextManager [hello_at 0]) 1 0
              (timedelta_minutes 31) hello None (timedelta_minutes 31)
              (timedelta_minutes 31)) as (_ & _ & _ & Hbuf & _).
  - vm_compute. reflexivity.
  - vm_compute. discriminate.
  - vm_compute. reflexivity.
  - vm_compute. reflexivity.
  - vm_compute. discriminate.
  - exact Hbuf.
Defined.

(* ===================================================================== *)
(** * Properties of the request loop *)
(* ===================================================================== *)

Section RequestLoop.

Variables (retries : Z) (post : Z → post_result).

(** An attempt either ends the loop with [final_result] or goes to
    [retry_or_give_up]. *)
Lemma request_loop_cons (attempt : Z) (rest : list Z) :
  request_loop retries post (attempt :: rest)
  = if retryable (post attempt)
    then retry_or_give_up attempt retries (request_loop retries post rest)
    else (final_result (post attempt), {| posts := 1; sleeps := [] |}).
Proof.
  cbn [request_loop]. unfold retryable, final_result.
  destruct (post attempt) as [code body| | |]; try done.
  destruct (code =? 200) eqn:H200.
  { by destruct body. }
  destruct (code =? 429); [done|].
  destruct (code =? 401); [done|].
  by destruct (500 <=? code).
Qed.

Lemma backoff_cons (a : Z) (k : nat) :
  2 ^ a :: ((λ i, 2 ^ i) <$> seqZ (a + 1) (Z.of_nat k))
  = (λ i, 2 ^ i) <$> seqZ a (Z.of_nat (S k)).
Proof.
  rewrite (seqZ_cons a (Z.of_nat (S k))) by lia.
  rewrite fmap_cons. do 3 f_equal; lia.
Qed.

(** The effects of the attempts [a], ..., [retries]. *)
Lemma request_loop_effects (n : nat) :
  ∀ a, Z.of_nat n = retries + 1 - a →
    let r := request_loop retries post (seqZ a (Z.of_nat n)) in
    (n = O → posts r.2 = O)
    ∧ (n ≠ O → 1 ≤ posts r.2 ≤ n)%nat
    ∧ sleeps r.2 = (λ i, 2 ^ i) <$> seqZ a (Z.of_nat (posts r.2 - 1)).
Proof.
  induction n as [|n IH]; intros a Hn r; subst r.
  - rewrite seqZ_nil by lia. simpl. done.
  - rewrite seqZ_cons by lia.
    replace (Z.pred (Z.of_nat (S n))) with (Z.of_nat n) by lia.
    replace (Z.succ a) with (a + 1) by lia.
    rewrite request_loop_cons.
    destruct (retryable (post a)); [|simpl; split; [done|]; split; [lia|done]].
    unfold retry_or_give_up.
    destruct (a <? retries) eqn:Hlt;
      [|simpl; split; [done|]; split; [lia|done]].
    apply Z.ltb_lt in Hlt.
    destruct (IH (a + 1) ltac:(lia)) as (_ & Hposts & Hsleeps).
    specialize (Hposts ltac:(lia)).
    cbn [fst snd posts sleeps]. split; [done|]. split; [lia|].
    rewrite Hsleeps.
    destruct (posts (request_loop retries post (seqZ (a + 1) (Z.of_nat n))).2)
      as [|p] eqn:Hp; [lia|].
    replace (S p - 1)%nat with p by lia.
    replace (S (S p) - 1)%nat with (S p) by lia.
    apply backoff_cons.
Qed.

(** The loop from attempt [a] when the first attempt that is not
    [retryable] is attempt [k]. *)
Lemma request_loop_first_final (d : nat) :
  ∀ a k, k = a + Z.of_nat d → k ≤ retries →
    (∀ j, a ≤ j < k → retryable (post j) = true) →
    retryable (post k) = false →
    request_loop retries post (seqZ a (retries + 1 - a))
    = (final_result (post k),
       {| posts := S d; sleeps := (λ i, 2 ^ i) <$> seqZ a (Z.of_nat d) |}).
Proof.
  induction d as [|d IH]; intros a k Hk Hle Hretry Hfinal.
  - assert (k = a) as -> by lia.
    rewrite seqZ_cons by lia. rewrite request_loop_cons, Hfinal. done.
  - rewrite seqZ_cons by lia. rewrite request_loop_cons.
    rewrite Hretry by lia. unfold retry_or_give_up.
    destruct (a <? retries) eqn:Hlt; [|apply Z.ltb_ge in Hlt; lia].
    replace (Z.pred (retries + 1 - a)) with (retries + 1 - (a + 1)) by lia.
    replace (Z.succ a) with (a + 1) by lia.
    rewrite (IH (a + 1) k) by (try done; intros; try apply Hretry; lia).
    cbn [fst snd posts sleeps]. by rewrite backoff_cons.
Qed.

(** The loop from attempt [a] when every attempt is [retryable]. *)
Lemma request_loop_all_retryable (d : nat) :
  ∀ a, retries = a + Z.of_nat d →
    (∀ j, a ≤ j ≤ retries → retryable (post j) = true) →
    request_loop retries post (seqZ a (retries + 1 - a))
    = (Returned None,
       {| posts := S d; sleeps := (λ i, 2 ^ i) <$> seqZ a (Z.of_nat d) |}).
Proof.
  induction d as [|d IH]; intros a Ha Hretry.
  - rewrite seqZ_cons by lia. rewrite request_loop_cons.
    rewrite Hretry by lia. unfold retry_or_give_up.
    destruct (a <? retries) eqn:Hlt; [apply Z.ltb_lt in Hlt; lia|]. done.
  - rewrite seqZ_cons by lia. rewrite request_loop_cons.
    rewrite Hretry by lia. unfold retry_or_give_up.
    destruct (a <? retries) eqn:Hlt; [|apply Z.ltb_ge in Hlt; lia].
    replace (Z.pred (retries + 1 - a)) with (retries + 1 - (a + 1)) by lia.
    replace (Z.succ a) with (a + 1) by lia.
    rewrite (IH (a + 1)) by (try lia; intros; apply Hretry; lia).
    cbn [fst snd posts sleeps]. by rewrite backoff_cons.
Qed.

End RequestLoop.


(** X16. The effort of a call to the API is bounded, whatever the
    server does: [generate_comment] and [generate_detailed_comment]
    send at most [retries + 1] requests, and before the request of
    attempt i they sleep 2^(i-1) seconds, so 1, 2, 4, ... seconds in
    this order and nothing after the last request. Without an API key,
    or on a text of fewer than [min_length] characters when stripped,
    they return [None] and send nothing. *)
Theorem generate_with_effort (min_length : Z) (api_key txt : pystr)
    (retries : Z) (post : Z → post_result) :
  let r := generate_with min_length api_key txt retries post in
  (posts r.2 ≤ Z.to_nat (retries + 1))%nat
  ∧ sleeps r.2 = backoff (posts r.2 - 1)
  ∧ (api_key = [] ∨ len (strip txt) < min_length →
     r = (Returned None, {| posts := 0; sleeps := [] |})).
Proof.
  intros r. subst r. unfold generate_with.
  case_bool_decide as Hkey.
  { simpl. split; [lia|]. split; [done|]. done. }
  destruct (bool_decide (txt = []) || (len (strip txt) <? min_length))
    eqn:Hshort.
  { simpl. split; [lia|]. split; [done|]. done. }
  apply orb_false_iff in Hshort as [_ Hlen]. apply Z.ltb_ge in Hlen.
  unfold py_range.
  destruct (decide (0 ≤ retries + 1)) as [Hpos|Hneg].
  - pose proof (request_loop_effects retries post (Z.to_nat (retries + 1)) 0
                  ltac:(lia)) as Heff.
    rewrite Z2Nat.id in Heff by lia. simpl in Heff.
    destruct Heff as (Hzero & Hsome & Hsleeps).
    split; [|split].
    + destruct (decide (Z.to_nat (retries + 1) = O)) as [Hz|Hnz].
      * rewrite (Hzero Hz). lia.
      * specialize (Hsome Hnz). lia.
    + done.
    + intros [Hk|Hl]; [done|lia].
  - rewrite seqZ_nil by lia. simpl. split; [lia|]. split; [done|].
    intros [Hk|Hl]; [done|lia].
Qed.

(** X17. What a call to the API returns. When attempt [k] is the first
    one that is not followed by a retry (a 200 response with a readable
    body, a 401, another status below 500 that is not 429, or an
    exception outside the [requests] family), the loop sends [k + 1]
    requests, sleeps 1, 2, ..., 2^(k-1) seconds and ends as that
    attempt says: the stripped content, [None], or the exception. When
    all [retries + 1] attempts ask for a retry (429, a status from 500,
    a timeout or another [requests] exception), it returns [None] after
    [retries + 1] requests. *)
Theorem request_loop_closed_form (retries : Z) (post : Z → post_result)
    (k : nat) :
  (Z.of_nat k ≤ retries →
   (∀ j, 0 ≤ j < Z.of_nat k → retryable (post j) = true) →
   retryable (post (Z.of_nat k)) = false →
   request_loop retries post (py_range (retries + 1))
   = (final_result (post (Z.of_nat k)),
      {| posts := S k; sleeps := backoff k |}))
  ∧ (retries = Z.of_nat k →
     (∀ j, 0 ≤ j ≤ retries → retryable (post j) = true) →
     request_loop retries post (py_range (retries + 1))
     = (Returned None, {| posts := S k; sleeps := backoff k |})).
Proof.
  unfold py_range, backoff. split.
  - intros Hle Hretry Hfinal.
    replace (retries + 1) with (retries + 1 - 0) by lia.
    by apply (request_loop_first_final retries post k 0 (Z.of_nat k)).
  - intros Hk Hretry.
    replace (retries + 1) with (retries + 1 - 0) by lia.
    by apply (request_loop_all_retryable retries post k 0).
Qed.

(** Two rate-limit responses and then a comment, with the default of
    two retries: three requests, sleeps of 1 and 2 seconds. *)
Lemma request_loop_closed_form_witness :
  request_loop 2
    (λ i, if i <? 2 then Response 429 BodyOtherException
          else Response 200 (Content hello))
    (py_range (2 + 1))
  = (Returned (Some hello), {| posts := 3; sleeps := [1; 2] |}).
Proof.
  destruct (request_loop_closed_form 2
              (λ i, if i <? 2 then Response 429 BodyOtherException
                    else Response 200 (Content hello)) 2) as [Hfirst _].
  rewrite Hfirst.
  - vm_compute. reflexivity.
  - lia.
  - intros j Hj. destruct (j <? 2) eqn:Hlt; [done|].
    apply Z.ltb_ge in Hlt. lia.
  - vm_compute. reflexivity.
Defined.

(* ===================================================================== *)
(** * Properties of the handlers *)
(* ===================================================================== *)

Section HandlerFacts.

Variable cfg : Config.

Implicit Types (self : ContextManager) (u v now : Z).

Lemma has_context_true_inv self u now :
  (has_context cfg self u now).1 = true →
  buffer self u ≠ []
  ∧ _is_context_expired cfg self u now = false
  ∧ (has_context cfg self u now).2 = self.
Proof.
  unfold has_context, buffer.
  destruct (user_contexts self !! u) as [[|m ms]|]; simpl; try done.
  by destruct (_is_context_expired cfg self u now).
Qed.

Lemma get_context_text_nonempty_wf self u now :
  store_wf cfg self →
  1 ≤ CONTEXT_MAX_TOKENS cfg →
  (get_context_text cfg self u now).1 ≠ Some [].
Proof.
  intros [_ Hbuf] Htok. unfold get_context_text.
  destruct (user_contexts self !! u) as [[|m ms]|] eqn:Hu; simpl; try done.
  destruct (_is_context_expired cfg self u now); simpl; [done|].
  destruct (Hbuf u (m :: ms) Hu) as (_ & _ & Htexts).
  destruct (CONTEXT_MAX_TOKENS cfg <? _); simpl; intros [= Hnil].
  - apply (truncate_context_nonempty cfg self u Htok); try done.
    + unfold buffer. by rewrite Hu.
    + unfold buffer. rewrite Hu. simpl.
      eapply Forall_impl; [exact Htexts|]. by intros x [_ ?].
  - by apply (full_context_text_nonempty (m :: ms)).
Qed.

Lemma same_or_cleared_trans u self1 self2 self3 :
  same_or_cleared u self1 self2 → same_or_cleared u self2 self3 →
  same_or_cleared u self1 self3.
Proof.
  unfold same_or_cleared. intros [->| ->] [->| ->]; auto.
  right. unfold clear_context; simpl. by rewrite !delete_delete_eq.
Qed.

Lemma same_or_cleared_reads self u now :
  same_or_cleared u self (has_context cfg self u now).2
  ∧ same_or_cleared u self (get_context_text cfg self u now).2
  ∧ same_or_cleared u self (get_message_count cfg self u now).2.
Proof.
  destruct (reads_state cfg self u now) as (Hs & -> & ->). done.
Qed.

Lemma same_or_cleared_lookup u self self' :
  same_or_cleared u self self' →
  (∀ v messages, user_contexts self' !! v = Some messages →
                 user_contexts self !! v = Some messages)
  ∧ (∀ v, u ≠ v →
       user_contexts self' !! v = user_contexts self !! v
       ∧ user_last_activity self' !! v = user_last_activity self !! v).
Proof.
  intros [->| ->]; [done|]. unfold clear_context; simpl. split.
  - intros v messages Hv. by apply lookup_delete_Some in Hv as [_ Hv].
  - intros v Hne. by rewrite !lookup_delete_ne.
Qed.

Lemma reply_too_many_requests_differs (wait_time : Z) :
  [reply_too_many_requests wait_time] ≠ [reply_context_empty].
Proof.
  unfold reply_too_many_requests, too_many_requests_prefix,
    reply_context_empty.
  intros [= Hsame].
Qed.

Lemma reply_no_context_differs : [reply_no_context] ≠ [reply_context_empty].
Proof.
  unfold reply_no_context, reply_context_empty.
  intros [= Hsame].
Qed.

End HandlerFacts.

(** X18. [handle_analyze] when the store is read at one clock reading,
    on a store built by the methods and a token limit of at least one.
    A refused request gets the one reply with the waiting time and
    leaves the store untouched, an expired buffer included. An admitted
    request without context gets the one reply that there is none. An
    admitted request with context gets two replies, the announcement
    with the length of the buffer and then the comment (or the reply
    that stands for an empty or failed one), and leaves the store as it
    was. The reply that the context is empty or expired is never sent:
    it needs the clock to move between [has_context] and
    [get_context_text]. *)
Theorem handle_analyze_at_one_reading (cfg : Config)
    (generate : pystr → outcome pystr) (limiter : RateLimiter)
    (calls : list store_call) (u : Z) (clk : analyze_clock) :
  0 < CONTEXT_MAX_MESSAGES cfg →
  1 ≤ CONTEXT_MAX_TOKENS cfg →
  at_get_context_text clk = at_has_context clk →
  at_get_message_count clk = at_has_context clk →
  let store := run_store cfg new_ContextManager calls in
  let now := at_has_context clk in
  let r := handle_analyze cfg generate
             {| g_rate_limiter := limiter; g_context_manager := store |}
             u clk in
  let allowed := (is_allowed limiter u (at_is_allowed clk)).1 in
  (allowed = false →
     r.1 = [reply_too_many_requests
              (get_wait_time (is_allowed limiter u (at_is_allowed clk)).2 u
                             (at_get_wait_time clk)).1]
     ∧ g_context_manager r.2 = store)
  ∧ (allowed = true → (has_context cfg store u now).1 = false →
     r.1 = [reply_no_context])
  ∧ (allowed = true → (has_context cfg store u now).1 = true →
     ∃ txt, (get_context_text cfg store u now).1 = Some txt
            ∧ txt ≠ []
            ∧ r.1 = [reply_analyzing (len (buffer store u));
                     reply_comment generate txt]
            ∧ g_context_manager r.2 = store)
  ∧ r.1 ≠ [reply_context_empty].
Proof.
  intros Hmax Htok Htext Hcount store now r allowed.
  pose proof (store_invariant_holds cfg calls Hmax) as Hwf. fold store in Hwf.
  subst r allowed. unfold handle_analyze.
  cbn [g_rate_limiter g_context_manager].
  rewrite Htext, Hcount. fold now.
  destruct (is_allowed limiter u (at_is_allowed clk)).1 eqn:Hallowed;
    cbn [negb].
  - (* admitted *)
    destruct (has_context cfg store u now).1 eqn:Hhas; cbn [negb].
    + destruct (has_context_true_inv cfg store u now Hhas)
        as (Hne & Hfresh & Hsame).
      rewrite Hsame.
      pose proof (get_context_text_nonempty cfg store u now Hne) as Hget.
      rewrite Hfresh in Hget.
      pose proof (get_context_text_nonempty_wf cfg store u now Hwf Htok)
        as Hnonempty.
      assert (∃ txt, get_context_text cfg store u now = (Some txt, store))
        as [txt Htxt].
      { rewrite Hget. destruct (CONTEXT_MAX_TOKENS cfg <? _); eauto. }
      rewrite Htxt in Hnonempty |- *. cbn [fst snd] in Hnonempty |- *.
      destruct txt as [|c txt]; [done|].
      assert (get_message_count cfg store u now
              = (len (buffer store u), store)) as Hcnt.
      { unfold get_message_count.
        rewrite (has_context_nonempty cfg store u now Hne), Hfresh. done. }
      rewrite Hcnt. cbn [fst snd g_context_manager].
      split; [done|]. split; [done|]. split; [|done].
      intros _ _. exists (c :: txt). done.
    + cbn [fst snd].
      split; [done|]. split; [done|]. split; [done|].
      apply reply_no_context_differs.
  - (* refused *)
    cbn [fst snd g_context_manager].
    split; [done|]. split; [done|]. split; [done|].
    apply reply_too_many_requests_differs.
Qed.

Lemma handle_analyze_at_one_reading_witness :
  (handle_analyze config (λ _, Returned hello)
     {| g_rate_limiter := rate_limiter;
        g_context_manager :=
          run_store config new_ContextManager [AddMessage 1 hello None 0 0] |}
     1 {| at_is_allowed := 5; at_get_wait_time := 5; at_has_context := 5;
          at_get_context_text := 5; at_get_message_count := 5 |}).1
  ≠ [reply_context_empty].
Proof.
  apply (handle_analyze_at_one_reading config (λ _, Returned hello)
           rate_limiter [AddMessage 1 hello None 0 0] 1
           {| at_is_allowed := 5; at_get_wait_time := 5; at_has_context := 5;
              at_get_context_text := 5; at_get_message_count := 5 |}).
  - vm_compute. reflexivity.
  - vm_compute. discriminate.
  - reflexivity.
  - reflexivity.
Defined.

(** X19. What [handle_analyze] can do, with any clock and any
    generator. It sends one or two replies. On the limiter it has the
    effect of the one [is_allowed] call: the request takes a slot
    whenever it is admitted, with or without context, and the lists of
    other users stay. In the store it alters no entry: every buffer
    found afterwards was there before, unchanged, and the records of
    other users stay. *)
Theorem handle_analyze_effects (cfg : Config)
    (generate : pystr → outcome pystr) (g : Globals) (u : Z)
    (clk : analyze_clock) :
  let r := handle_analyze cfg generate g u clk in
  (1 ≤ length r.1 ≤ 2)%nat
  ∧ (∀ w, history (g_rate_limiter r.2) w
          = history (is_allowed (g_rate_limiter g) u (at_is_allowed clk)).2 w)
  ∧ (∀ v messages,
       user_contexts (g_context_manager r.2) !! v = Some messages →
       user_contexts (g_context_manager g) !! v = Some messages)
  ∧ (∀ v, u ≠ v →
       user_contexts (g_context_manager r.2) !! v
       = user_contexts (g_context_manager g) !! v
       ∧ user_last_activity (g_context_manager r.2) !! v
         = user_last_activity (g_context_manager g) !! v).
Proof.
  intros r.
  assert ((1 ≤ length r.1 ≤ 2)%nat
          ∧ (∀ w, history (g_rate_limiter r.2) w
                  = history (is_allowed (g_rate_limiter g) u
                               (at_is_allowed clk)).2 w)
          ∧ same_or_cleared u (g_context_manager g) (g_context_manager r.2))
    as (Hlen & Hlim & Hstore).
  { subst r. unfold handle_analyze.
    destruct (is_allowed (g_rate_limiter g) u (at_is_allowed clk)).1;
      cbn [negb].
    - destruct (same_or_cleared_reads cfg (g_context_manager g) u
                  (at_has_context clk)) as (Hhas & _ & _).
      destruct (has_context cfg (g_context_manager g) u (at_has_context clk)).1;
        cbn [negb fst snd length g_rate_limiter g_context_manager];
        [|split; [lia|]; split; [done|]; done].
      destruct (same_or_cleared_reads cfg
                  (has_context cfg (g_context_manager g) u
                     (at_has_context clk)).2 u (at_get_context_text clk))
        as (_ & Htxt & _).
      pose proof (same_or_cleared_trans _ _ _ _ Hhas Htxt) as Hafter.
      destruct (get_context_text cfg _ u (at_get_context_text clk)).1
        as [[|c txt]|];
        cbn [fst snd length g_rate_limiter g_context_manager];
        try (split; [lia|]; split; [done|]; done).
      split; [lia|]. split; [done|].
      eapply same_or_cleared_trans; [exact Hafter|].
      apply same_or_cleared_reads.
    - cbn [fst snd length g_rate_limiter g_context_manager].
      split; [lia|]. split; [|by left].
      intros w. apply get_wait_time_history. }
  split; [done|]. split; [done|].
  by apply same_or_cleared_lookup.
Qed.

(** X20. [handle_forwarded_message] on a forwarded message whose text
    (or, without text, caption) has at least 5 characters when
    stripped, the count being read before the refreshed buffer can
    expire: the message is stored, the one reply says that it was
    added and gives the new length of the buffer, which is between 1
    and [CONTEXT_MAX_MESSAGES], and the rate limiter is not involved. *)
Theorem handle_forwarded_message_stores (cfg : Config) (g : Globals)
    (update : Update) (message : Message) (clk : forward_clock) :
  0 < CONTEXT_MAX_MESSAGES cfg →
  upd_message update = Some message →
  tg_forward_origin message = true →
  5 ≤ len (strip (text_or_caption message)) →
  at_count clk - at_activity clk
  ≤ timedelta_minutes (CONTEXT_TIMEOUT_MINUTES cfg) →
  let u := effective_user_id update in
  let stored :=
    add_message cfg (g_context_manager g) u (text_or_caption message)
                (Some (tg_message_id message))
                (at_message clk) (at_activity clk) in
  let r := handle_forwarded_message cfg g update clk in
  r = ([reply_added cfg (len (buffer stored u))],
       {| g_rate_limiter := g_rate_limiter g; g_context_manager := stored |})
  ∧ 1 ≤ len (buffer stored u) ≤ CONTEXT_MAX_MESSAGES cfg
  ∧ last (buffer stored u)
    = Some {| text := strip (text_or_caption message);
              timestamp := at_message clk;
              message_id := Some (tg_message_id message) |}.
Proof.
  intros Hmax Hmsg Hfwd Hlong Hsoon u stored r.
  apply too_short_false_iff in Hlong.
  set (entry := {| text := strip (text_or_caption message);
                   timestamp := at_message clk;
                   message_id := Some (tg_message_id message) |}).
  assert (buffer stored u
          = keep_last (CONTEXT_MAX_MESSAGES cfg)
                      (buffer (g_context_manager g) u ++ [entry])) as Hbuf
    by by apply buffer_add_message_eq.
  pose proof (last_keep_last_snoc (CONTEXT_MAX_MESSAGES cfg)
                (buffer (g_context_manager g) u) entry Hmax) as Hlast.
  rewrite <- Hbuf in Hlast.
  assert (buffer stored u ≠ []) as Hne
    by (intros Hnil; by rewrite Hnil in Hlast).
  assert (user_last_activity stored !! u = Some (at_activity clk)) as Hact.
  { destruct (add_message_stored cfg (g_context_manager g) u
                (text_or_caption message) (Some (tg_message_id message))
                (at_message clk) (at_activity clk) Hlong Hmax) as [_ Hact].
    fold stored in Hact. by rewrite Hact, lookup_insert_eq. }
  assert (_is_context_expired cfg stored u (at_count clk) = false) as Hfresh.
  { apply not_true_is_false. intros E.
    apply (is_context_expired_iff cfg stored u _ _ Hact) in E. lia. }
  assert (get_message_count cfg stored u (at_count clk)
          = (len (buffer stored u), stored)) as Hcnt.
  { unfold get_message_count.
    rewrite (has_context_nonempty cfg stored u _ Hne), Hfresh. done. }
  split; [|split; [|done]].
  - subst r. unfold handle_forwarded_message. rewrite Hmsg, Hfwd.
    cbn [negb]. fold u.
    destruct (text_or_caption message) as [|c txt] eqn:Htxt.
    { unfold too_short in Hlong. by rewrite bool_decide_eq_true_2 in Hlong. }
    fold stored. by rewrite Hcnt.
  - split.
    + destruct (buffer stored u); [done|]. unfold len. simpl. lia.
    + rewrite Hbuf. apply keep_last_length. lia.
Qed.

Lemma handle_forwarded_message_stores_witness :
  (handle_forwarded_message config
     {| g_rate_limiter := rate_limiter;
        g_context_manager := new_ContextManager |}
     {| effective_user_id := 1;
        upd_message :=
          Some {| tg_text := Some hello; tg_caption := None;
                  tg_forward_origin := true; tg_photo := false;
                  tg_video := false; tg_document := false;
                  tg_message_id := 42 |} |}
     {| at_message := 0; at_activity := 0; at_count := 1 |}).1
  = [reply_added config 1].
Proof.
  destruct (handle_forwarded_message_stores config
     {| g_rate_limiter := rate_limiter;
        g_context_manager := new_ContextManager |}
     {| effective_user_id := 1;
        upd_message :=
          Some {| tg_text := Some hello; tg_caption := None;
                  tg_forward_origin := true; tg_photo := false;
                  tg_video := false; tg_document := false;
                  tg_message_id := 42 |} |}
     {| tg_text := Some hello; tg_caption := None;
        tg_forward_origin := true; tg_photo := false;
        tg_video := false; tg_document := false;
        tg_message_id := 42 |}
     {| at_message := 0; at_activity := 0; at_count := 1 |})
    as (Hr & _ & _).
  - vm_compute. reflexivity.
  - reflexivity.
  - reflexivity.
  - vm_compute. discriminate.
  - vm_compute. discriminate.
  - rewrite Hr. vm_compute. reflexivity.
Defined.

(** X21. [handle_forwarded_message] on a forwarded message whose text is
    not empty but has fewer than 5 characters when stripped: nothing is
    stored, and still the one reply says that the message was added,
    with the count that [get_message_count] gives for the store as it
    was; no buffer gains or changes an entry. *)
Theorem handle_forwarded_message_drops_short (cfg : Config) (g : Globals)
    (update : Update) (message : Message) (clk : forward_clock) :
  upd_message update = Some message →
  tg_forward_origin message = true →
  text_or_caption message ≠ [] →
  len (strip (text_or_caption message)) < 5 →
  let u := effective_user_id update in
  let count := get_message_count cfg (g_context_manager g) u (at_count clk) in
  let r := handle_forwarded_message cfg g update clk in
  r = ([reply_added cfg count.1],
       {| g_rate_limiter := g_rate_limiter g; g_context_manager := count.2 |})
  ∧ (∀ v messages,
       user_contexts (g_context_manager r.2) !! v = Some messages →
       user_contexts (g_context_manager g) !! v = Some messages).
Proof.
  intros Hmsg Hfwd Hne Hshort u count r.
  apply too_short_iff in Hshort.
  assert (r = ([reply_added cfg count.1],
               {| g_rate_limiter := g_rate_limiter g;
                  g_context_manager := count.2 |})) as Hr.
  { subst r. unfold handle_forwarded_message. rewrite Hmsg, Hfwd.
    cbn [negb]. fold u.
    destruct (text_or_caption message) as [|c txt] eqn:Htxt; [done|].
    by rewrite add_message_too_short. }
  split; [done|]. rewrite Hr. cbn [snd g_context_manager].
  destruct (same_or_cleared_reads cfg (g_context_manager g) u (at_count clk))
    as (_ & _ & Hcount).
  by apply (same_or_cleared_lookup u).
Qed.

(** The text "ok" forwarded to an empty store: the reply reports
    0 messages. *)
Lemma handle_forwarded_message_drops_short_witness :
  (handle_forwarded_message config
     {| g_rate_limiter := rate_limiter;
        g_context_manager := new_ContextManager |}
     {| effective_user_id := 1;
        upd_message :=
          Some {| tg_text := Some [111; 107]; tg_caption := None;
                  tg_forward_origin := true; tg_photo := false;
                  tg_video := false; tg_document := false;
                  tg_message_id := 42 |} |}
     {| at_message := 0; at_activity := 0; at_count := 1 |}).1
  = [reply_added config 0].
Proof.
  destruct (handle_forwarded_message_drops_short config
     {| g_rate_limiter := rate_limiter;
        g_context_manager := new_ContextManager |}
     {| effective_user_id := 1;
        upd_message :=
          Some {| tg_text := Some [111; 107]; tg_caption := None;
                  tg_forward_origin := true; tg_photo := false;
                  tg_video := false; tg_document := false;
                  tg_message_id := 42 |} |}
     {| tg_text := Some [111; 107]; tg_caption := None;
        tg_forward_origin := true; tg_photo := false;
        tg_video := false; tg_document := false;
        tg_message_id := 42 |}
     {| at_message := 0; at_activity := 0; at_count := 1 |})
    as (Hr & _).
  - reflexivity.
  - reflexivity.
  - vm_compute. discriminate.
  - vm_compute. reflexivity.
  - rewrite Hr. vm_compute. reflexivity.
Defined.

(* ===================================================================== *)
(** * Properties of the comment generator *)
(* ===================================================================== *)

Section ContainsFacts.

Implicit Types (needle hay : pystr).

Lemma starts_with_app needle rest : starts_with needle (needle ++ rest) = true.
Proof.
  induction needle as [|c needle IH]; [done|]. simpl.
  by rewrite Z.eqb_refl, IH.
Qed.

Lemma starts_with_inv needle hay :
  starts_with needle hay = true → ∃ rest, hay = needle ++ rest.
Proof.
  revert hay. induction needle as [|c needle IH]; intros hay Hs.
  - by exists hay.
  - destruct hay as [|d hay]; [done|]. simpl in Hs.
    apply andb_true_iff in Hs as [Hc Hs]. apply Z.eqb_eq in Hc as ->.
    destruct (IH hay Hs) as [rest ->]. by exists rest.
Qed.

Lemma contains_app needle before after :
  contains needle (before ++ needle ++ after) = true.
Proof.
  induction before as [|c before IH].
  - cbn [app].
    pose proof (starts_with_app needle after) as Hs.
    destruct (needle ++ after); simpl; by rewrite Hs.
  - cbn [app contains]. rewrite IH. apply orb_true_r.
Qed.

Lemma contains_inv needle hay :
  contains needle hay = true → ∃ before after, hay = before ++ needle ++ after.
Proof.
  induction hay as [|c hay IH]; simpl.
  - rewrite orb_false_r. intros Hs.
    destruct (starts_with_inv _ _ Hs) as [rest ->]. by exists [], rest.
  - intros Hc. apply orb_true_iff in Hc as [Hs|Hc].
    + destruct (starts_with_inv _ _ Hs) as [rest ->]. by exists [], rest.
    + destruct (IH Hc) as (before & after & ->).
      by exists (c :: before), after.
Qed.

(** A part of a part is a part. *)
Lemma contains_trans needle middle hay :
  contains needle middle = true → contains middle hay = true →
  contains needle hay = true.
Proof.
  intros H1 H2.
  destruct (contains_inv _ _ H1) as (b1 & a1 & ->).
  destruct (contains_inv _ _ H2) as (b2 & a2 & ->).
  replace (b2 ++ (b1 ++ needle ++ a1) ++ a2)
    with ((b2 ++ b1) ++ needle ++ (a1 ++ a2))
    by (by rewrite <- !(assoc_L (++))).
  apply contains_app.
Qed.

Lemma filter_one {A} (P : A → Prop) `{∀ x, Decision (P x)} (l : list A)
    (i : nat) (a : A) :
  l !! i = Some a → P a → 1 ≤ len (filter P l).
Proof.
  intros Hi Ha. unfold len.
  assert (a ∈ filter P l) as Hin.
  { apply list_elem_of_filter. split; [done|].
    apply list_elem_of_lookup. eauto. }
  destruct (filter P l); [by apply elem_of_nil in Hin|]. simpl. lia.
Qed.

Lemma filter_two {A} (P : A → Prop) `{∀ x, Decision (P x)} (l : list A) :
  ∀ (i j : nat) (a b : A),
    (i < j)%nat → l !! i = Some a → l !! j = Some b → P a → P b →
    2 ≤ len (filter P l).
Proof.
  induction l as [|x l IH]; intros i j a b Hij Hi Hj Ha Hb; [done|].
  destruct j as [|j]; [lia|]. simpl in Hj.
  rewrite filter_cons.
  destruct i as [|i].
  - simpl in Hi. injection Hi as ->. rewrite decide_True by done.
    pose proof (filter_one P l j b Hj Hb). unfold len in *. simpl. lia.
  - simpl in Hi.
    pose proof (IH i j a b ltac:(lia) Hi Hj Ha Hb).
    destruct (decide (P x)); unfold len in *; simpl; lia.
Qed.

End ContainsFacts.

(** X22. The keywords are looked for as parts of the text, not as
    words, and one of them is part of others: a text whose lower-case
    form contains "всегда", or "всеобщий", also contains "все", counts
    two exaggeration keywords and is classified [exaggeration] on that
    single word, whatever else it says. *)
Theorem detect_message_type_counts_overlap (lower : pystr → pystr)
    (isdecimal : Z → bool) (txt : pystr) :
  contains keyword_vsegda (lower txt) = true
  ∨ contains keyword_vseobshchiy (lower txt) = true →
  _detect_message_type lower isdecimal txt = exaggeration.
Proof.
  intros Hword. unfold _detect_message_type, count_keywords.
  assert (2 ≤ len (filter (λ word, contains word (lower txt) = true)
                          exaggeration_keywords)) as Htwo.
  { destruct Hword as [Hw|Hw].
    - apply (filter_two _ exaggeration_keywords 0 2
               keyword_vse keyword_vsegda); try done; [lia|].
      by apply (contains_trans _ keyword_vsegda).
    - apply (filter_two _ exaggeration_keywords 0 8
               keyword_vse keyword_vseobshchiy); try done; [lia|].
      by apply (contains_trans _ keyword_vseobshchiy). }
  apply Z.leb_le in Htwo. by rewrite Htwo.
Qed.

(** "он всегда прав" *)
Lemma detect_message_type_counts_overlap_witness :
  _detect_message_type lower_of_lowercase ascii_digit
    [1086; 1085; 32; 1074; 1089; 1077; 1075; 1076; 1072; 32; 1087; 1088;
     1072; 1074]
  = exaggeration.
Proof.
  apply detect_message_type_counts_overlap. left. vm_compute. reflexivity.
Defined.

Section LocalComment.

Variables (lower : pystr → pystr) (isdecimal : Z → bool).

Lemma format_context_nonempty (template value : pystr) :
  template ≠ [] → value ≠ [] → format_context template value ≠ [].
Proof.
  intros Ht Hv. unfold format_context.
  destruct template as [|c r]; [done|]. cbn [format_from].
  destruct (starts_with context_field (c :: r)); [|done].
  destruct value; [done|]. done.
Qed.

Lemma random_choice_nonempty (draw : nat) (l : list pystr) :
  Forall (λ t, t ≠ []) l → (draw < length l)%nat → random_choice draw l ≠ [].
Proof.
  intros Hall Hdraw. unfold random_choice.
  destruct (lookup_lt_is_Some_2 l draw Hdraw) as [t Ht]. rewrite Ht. simpl.
  rewrite Forall_forall in Hall. apply Hall.
  apply list_elem_of_lookup. eauto.
Qed.

Lemma templates_nonempty (t : message_type) :
  Forall (λ t, t ≠ []) (templates t).
Proof. destruct t; repeat constructor; done. Qed.

Lemma not_too_short (min_length : Z) (txt : pystr) :
  0 < min_length → min_length ≤ len (strip txt) →
  bool_decide (txt = []) || (len (strip txt) <? min_length) = false.
Proof.
  intros Hpos Hlen. apply orb_false_iff. split.
  - apply bool_decide_eq_false. intros ->. vm_compute in Hlen.
    destruct min_length; try done; lia.
  - apply Z.ltb_ge. lia.
Qed.

Lemma local_sarcastic_comment_nonempty (txt : pystr) (d1 d2 : nat) :
  (d1 < length (templates (_detect_message_type lower isdecimal txt)))%nat →
  (d2 < length (templates general))%nat →
  local_sarcastic_comment lower isdecimal txt d1 d2 ≠ [].
Proof.
  intros Hd1 Hd2. unfold local_sarcastic_comment.
  destruct (bool_decide (txt = []) || (len (strip txt) <? 10)); [done|].
  pose proof (random_choice_nonempty d1 _ (templates_nonempty _) Hd1) as Ht.
  pose proof (random_choice_nonempty d2 _ (templates_nonempty general) Hd2)
    as Hg.
  destruct (contains context_field _); [|done].
  destruct (_extract_context lower isdecimal txt) as [[|c r]|]; try done.
  by apply format_context_nonempty.
Qed.

End LocalComment.

(** X23. The local generator never answers with an empty string: when
    the two draws are indices of the lists they are drawn from,
    [SarcasticCommentGenerator.generate_sarcastic_comment] returns at
    least one character, for every text. *)
Theorem local_sarcastic_comment_never_empty (lower : pystr → pystr)
    (isdecimal : Z → bool) (txt : pystr) (d1 d2 : nat) :
  (d1 < length (templates (_detect_message_type lower isdecimal txt)))%nat →
  (d2 < length (templates general))%nat →
  local_sarcastic_comment lower isdecimal txt d1 d2 ≠ [].
Proof. apply local_sarcastic_comment_nonempty. Qed.

Lemma local_sarcastic_comment_never_empty_witness :
  local_sarcastic_comment lower_of_lowercase ascii_digit
    [1086; 1085; 32; 1074; 1089; 1077; 1075; 1076; 1072; 32; 1087; 1088;
     1072; 1074] 1 2
  ≠ [].
Proof.
  apply local_sarcastic_comment_never_empty; vm_compute; lia.
Defined.

(** X24. The local generator can answer with a template whose field was
    never filled in. For a text of at least 10 characters: when it is a
    [factual_claim] and the third template is drawn, the comment
    contains the text "{claim}"; when it is [general], no context is
    found in it, and the fifth template is drawn both times, the
    comment contains the text "{context}". *)
Theorem local_sarcastic_comment_leaks_fields (lower : pystr → pystr)
    (isdecimal : Z → bool) (txt : pystr) (d2 : nat) :
  10 ≤ len (strip txt) →
  (_detect_message_type lower isdecimal txt = factual_claim →
   contains claim_field
     (local_sarcastic_comment lower isdecimal txt 2 d2) = true)
  ∧ (_detect_message_type lower isdecimal txt = general →
     _extract_context lower isdecimal txt = None →
     contains context_field
       (local_sarcastic_comment lower isdecimal txt 4 4) = true).
Proof.
  intros Hlen. unfold local_sarcastic_comment.
  rewrite (not_too_short 10 txt) by (done || lia).
  split.
  - intros ->.
    assert (contains context_field
              (random_choice 2 (templates factual_claim)) = false) as ->
      by (vm_compute; reflexivity).
    vm_compute. reflexivity.
  - intros -> ->.
    assert (contains context_field (random_choice 4 (templates general))
            = true) as Hfield by (vm_compute; reflexivity).
    by rewrite Hfield.
Qed.

(** "просто обычный текст": general, without context. *)
Lemma local_sarcastic_comment_leaks_fields_witness :
  contains context_field
    (local_sarcastic_comment lower_of_lowercase ascii_digit
       [1087; 1088; 1086; 1089; 1090; 1086; 32; 1086; 1073; 1099; 1095;
        1085; 1099; 1081; 32; 1090; 1077; 1082; 1089; 1090] 4 4)
  = true.
Proof.
  destruct (local_sarcastic_comment_leaks_fields lower_of_lowercase
              ascii_digit
              [1087; 1088; 1086; 1089; 1090; 1086; 32; 1086; 1073; 1099;
               1095; 1085; 1099; 1081; 32; 1090; 1077; 1082; 1089; 1090] 0)
    as [_ Hgeneral].
  - vm_compute. discriminate.
  - apply Hgeneral; vm_compute; reflexivity.
Defined.

